(** * summarize-mcp: a text-to-speech tool server

    A shallow embedding of [src/summarize_mcp/server.py] and the
    properties of its three tool handlers, its preference store, its
    audio-player selection and its scratch-directory sweep.

    Conventions of the embedding.
    - A Python [str] is a Rocq [string] holding its UTF-8 bytes; [len]
      counts code points ([Py.len]), and a string is non-empty when its
      [len] is at least 1.
    - A Python [float] is a binary64 [float] of the kernel, so that
      [time.time() * 1000] and [now - st_mtime > 3600] round as they do
      in the interpreter.
    - The module's globals, the files it touches and the requests it
      sends out are the fields of one [World]; a handler is a function
      in the state-and-exception monad [M] over it.
    - What the outside answers during one call (the clock, the provider,
      the operating system) is an [Env], quantified over in the theorems.
    - [logger] calls write to stderr only and are left out. *)

From Stdlib Require Import Ascii.
From Stdlib Require Import Floats.PrimFloat Floats.FloatOps Floats.SpecFloat.
From stdpp Require Import gmap strings list fin_maps pretty.

Set Warnings "-register-all".

Local Open Scope string_scope.
Local Open Scope list_scope.

(** ** Python strings *)

Module Py.

(** The line feed and the double quote, which the messages contain. *)
Definition nl : string := String (Ascii.ascii_of_nat 10) "".
Definition dquote : string := String (Ascii.ascii_of_nat 34) "".

(** A byte of the form [10xxxxxx] continues a code point. *)
Definition is_continuation (c : ascii) : bool :=
  match c with
  | Ascii _ _ _ _ _ _ false true => true
  | _ => false
  end.

(** [len(s)]: the number of code points. *)
Fixpoint len (s : string) : nat :=
  match s with
  | "" => 0
  | String c s' => (if is_continuation c then 0 else 1) + len s'
  end.

(** Truthiness of a [str]. *)
Definition truthy (s : string) : bool :=
  match s with
  | "" => false
  | String _ _ => true
  end.

(** [a or b] where [a : Optional[str]] and [b : str]. *)
Definition or_else (a : option string) (b : string) : string :=
  match a with
  | Some s => if truthy s then s else b
  | None => b
  end.

(** [sep.join(l)]. *)
Definition join (sep : string) (l : list string) : string :=
  String.concat sep l.

(** [s.replace(c, by)] for a one-character pattern. *)
Fixpoint replace_char (c : ascii) (by_ : string) (s : string) : string :=
  match s with
  | "" => ""
  | String d s' =>
      (if Ascii.eqb c d then by_ else String d "") +:+ replace_char c by_ s'
  end.

(** [s.startswith(p)], [s.endswith(p)] and [p in s]. *)
Definition startswith (p s : string) : bool := String.prefix p s.

Definition endswith (p s : string) : bool :=
  String.eqb (String.substring (String.length s - String.length p)
                               (String.length p) s) p
  && (String.length p <=? String.length s)%nat.

Fixpoint contains (p s : string) : bool :=
  String.prefix p s ||
  match s with
  | "" => false
  | String _ s' => contains p s'
  end.

(** [int(x)] on a float: truncation towards zero; [nan] and the
    infinities raise, which the caller sees as [None]. *)
Definition int (x : float) : option Z :=
  match Prim2SF x with
  | S754_zero _ => Some 0%Z
  | S754_finite s m e =>
      let mag := Z.shiftl (Z.pos m) e in
      Some (if s then (- mag)%Z else mag)
  | S754_infinity _ | S754_nan => None
  end.

End Py.

(** ** Configuration *)

Definition cleanup_delay : Z := 10.
Definition default_voice : string := "coral".
Definition default_instructions : string :=
  "Keep the summary as short and concise as possible. Speak in a clear and informative tone.".

Definition VALID_VOICES : list string :=
  ["alloy"; "ash"; "ballad"; "coral"; "echo"; "fable"; "nova"; "onyx";
   "sage"; "shimmer"].

(** ** The host the server runs on

    What the operating system, the clock and the speech provider answer
    while one function of the server runs. *)

(** Values of Python's [Exception] hierarchy, as far as the handlers
    tell them apart: pydantic's [ValidationError] is the one with an
    [errors()] method, [TTSError] is the module's own, anything else
    is seen through [str(e)] only. *)
Record ErrorDetails := { loc : list string; msg : string }.

Inductive Exc :=
| ValidationError (errors : list ErrorDetails)
| TTSError (message code : string)
| Exception (message : string).

(** The keyword arguments of [audio.speech.create]. *)
Record SpeechRequest := {
  req_model : string;
  req_voice : string;
  req_input : string;
  req_instructions : string
}.

(** How an [open(..., "w")] followed by [json.dump] ends: written, or
    [open] raised and the file is as before, or the write raised after
    the file was truncated. *)
Inductive WriteOutcome :=
| Written
| OpenRaises (e : Exc)
| DumpRaises (e : Exc).

Record Env := {
  platform_system : string;              (* platform.system() *)
  which : string -> option string;       (* shutil.which *)
  getenv_OPENAI_API_KEY : option string; (* os.getenv("OPENAI_API_KEY") *)
  new_client : string -> option Exc;     (* OpenAI(api_key=...) raising *)
  gettempdir : string;                   (* tempfile.gettempdir() *)
  mkdir : option Exc;                    (* temp_dir.mkdir(...) raising *)
  time_time : float;                     (* time.time() *)
  speech_create : SpeechRequest -> option Exc;  (* the provider raising *)
  stream_to_file : string -> option Exc; (* writing the audio raising *)
  popen : list string -> option Exc;     (* subprocess.Popen raising *)
  write_state : WriteOutcome             (* writing the state file *)
}.

(** ** Audio players *)

Inductive AudioPlayer :=
| AfplayPlayer
| WindowsPlayer
| LinuxPlayer (command : option string)
| FallbackPlayer.

Definition name (p : AudioPlayer) : string :=
  match p with
  | AfplayPlayer => "afplay (macOS)"
  | WindowsPlayer => "Windows Media Player"
  | LinuxPlayer _ => "Linux audio player"
  | FallbackPlayer => "Fallback (open with default app)"
  end.

(** The loop of [LinuxPlayer.check]: the first executable that
    [shutil.which] finds (a truthy path) is bound to [self.command]. *)
Fixpoint probe (env : Env) (players : list string) : option string :=
  match players with
  | [] => None
  | player :: rest =>
      match which env player with
      | Some path =>
          if Py.truthy path then Some player else probe env rest
      | None => probe env rest
      end
  end.

Definition linux_players : list string :=
  ["mpg123"; "play"; "aplay"; "ffplay"; "cvlc"].

(** [check]: the answer, and the object after the call ([LinuxPlayer]
    remembers the command it found). *)
Definition check (env : Env) (p : AudioPlayer) : bool * AudioPlayer :=
  match p with
  | AfplayPlayer =>
      if negb (String.eqb (platform_system env) "Darwin") then (false, p)
      else (bool_decide (is_Some (which env "afplay")), p)
  | WindowsPlayer => (String.eqb (platform_system env) "Windows", p)
  | LinuxPlayer command =>
      if negb (String.eqb (platform_system env) "Linux") then (false, p)
      else match probe env linux_players with
           | Some player => (true, LinuxPlayer (Some player))
           | None => (false, p)
           end
  | FallbackPlayer => (true, p)
  end.

Definition players : list AudioPlayer :=
  [AfplayPlayer; WindowsPlayer; LinuxPlayer None; FallbackPlayer].

(** The [for] loop of [get_audio_player]; falling off its end is the
    [return None]. *)
Fixpoint first_available (env : Env) (l : list AudioPlayer)
  : option AudioPlayer :=
  match l with
  | [] => None
  | player :: rest =>
      let (ok, player') := check env player in
      if ok then Some player' else first_available env rest
  end.

Definition get_audio_player (env : Env) : option AudioPlayer :=
  first_available env players.

(** ** Argument models

    The pydantic models of the module.  A failed model construction
    raises [ValidationError]; its [errors()] lists one entry per failing
    field, in field order.  A [ValueError] raised by a field validator
    is reported under the message [Value error, ...], a string shorter
    than [min_length=1] as [string_too_short]. *)

Definition value_error (m : string) : string := "Value error, " +:+ m.
Definition string_too_short : string :=
  "String should have at least 1 character".
Definition string_type : string := "Input should be a valid string".

Definition voice_message : string :=
  "Voice must be one of: " +:+ Py.join ", " VALID_VOICES.

Definition model_result (A : Type) (errors : list ErrorDetails) (x : A)
  : Exc + A :=
  match errors with
  | [] => inr x
  | _ :: _ => inl (ValidationError errors)
  end.

Module PlaySummaryArgs.
Record t := { summary : string;
              voice : option string;
              instructions : option string }.

Definition validate_voice (v : option string) : string + option string :=
  match v with
  | Some s =>
      if bool_decide (s ∈ VALID_VOICES) then inr v else inl voice_message
  | None => inr v
  end.

Definition new (summary : string) (voice instructions : option string)
  : Exc + t :=
  model_result t
    ((if (1 <=? Py.len summary)%nat then []
      else [{| loc := ["summary"]; msg := string_too_short |}])
     ++ match validate_voice voice with
        | inl m => [{| loc := ["voice"]; msg := value_error m |}]
        | inr _ => []
        end)
    {| summary := summary; voice := voice; instructions := instructions |}.
End PlaySummaryArgs.

Module SetVoiceArgs.
Record t := { voice : string }.

Definition validate_voice (v : string) : string + string :=
  if bool_decide (v ∈ VALID_VOICES) then inr v else inl voice_message.

Definition new (voice : string) : Exc + t :=
  model_result t
    match validate_voice voice with
    | inl m => [{| loc := ["voice"]; msg := value_error m |}]
    | inr _ => []
    end
    {| voice := voice |}.
End SetVoiceArgs.

Module SetToneArgs.
Record t := { tone : string }.

Definition new (tone : string) : Exc + t :=
  model_result t
    (if (1 <=? Py.len tone)%nat then []
     else [{| loc := ["tone"]; msg := string_too_short |}])
    {| tone := tone |}.
End SetToneArgs.

(** ** The state file

    [json.load] of the text that [json.dump] wrote gives the dictionary
    back, so a file is modelled by the JSON value its text denotes,
    [None] when the text is not JSON. *)

Inductive json :=
| JNull
| JBool (b : bool)
| JInt (n : Z)
| JFloat (x : float)
| JString (s : string)
| JArray (items : list json)
| JObject (members : list (string * json)).

(** [d.get(key)] for the dictionary [json.load] builds from an object:
    of two members with one key the later one stays. *)
Fixpoint dict_get (key : string) (members : list (string * json))
  : option json :=
  match members with
  | [] => None
  | (k, v) :: rest =>
      match dict_get key rest with
      | Some v' => Some v'
      | None => if String.eqb k key then Some v else None
      end
  end.

Module UserState.
Record t := { voice : string; tone : string }.

(** [UserState()] *)
Definition default : t :=
  {| voice := default_voice; tone := default_instructions |}.

(** A field declared [name: str = dflt]: the default when the key is
    absent, the value when it is a string, an error otherwise.  No
    validator is attached to either field. *)
Definition field (name dflt : string) (data : list (string * json))
  : list ErrorDetails * string :=
  match dict_get name data with
  | None => ([], dflt)
  | Some (JString s) => ([], s)
  | Some _ => ([{| loc := [name]; msg := string_type |}], dflt)
  end.

(** [UserState] built from the keyword arguments [data]: unpacking
    raises [TypeError] unless [data] is a mapping; keys other than the
    two fields are ignored. *)
Definition new (data : json) : Exc + t :=
  match data with
  | JObject members =>
      let (ev, v) := field "voice" default_voice members in
      let (et, t_) := field "tone" default_instructions members in
      model_result t (ev ++ et) {| voice := v; tone := t_ |}
  | _ => inl (Exception "argument after ** must be a mapping")
  end.

(** [model_dump()] *)
Definition model_dump (s : t) : json :=
  JObject [("voice", JString (voice s)); ("tone", JString (tone s))].
End UserState.

Inductive StateFile :=
| NoFile                           (* exists() is False *)
| Unreadable (e : Exc)             (* open(..., "r") raises *)
| Contents (data : option json).   (* the parsed text *)

(** ** The world of the server *)

(** A file of the scratch directory: its modification time, and whether
    [unlink] on it raises (the file is held open by a player, or is not
    a plain file). *)
Record FileEntry := { st_mtime : float; in_use : bool }.

Record World := {
  current_state : UserState.t;
  openai_client : option string;
  audio_player : option AudioPlayer;
  state_file : StateFile;
  temp_dir : option (gmap string FileEntry);
  speech_requests : list SpeechRequest;
  processes : list (list string);
  tasks : list string
}.

Definition set_current_state (s : UserState.t) (w : World) : World :=
  {| current_state := s; openai_client := openai_client w;
     audio_player := audio_player w; state_file := state_file w;
     temp_dir := temp_dir w; speech_requests := speech_requests w;
     processes := processes w; tasks := tasks w |}.

Definition set_openai_client (c : option string) (w : World) : World :=
  {| current_state := current_state w; openai_client := c;
     audio_player := audio_player w; state_file := state_file w;
     temp_dir := temp_dir w; speech_requests := speech_requests w;
     processes := processes w; tasks := tasks w |}.

Definition set_audio_player (p : option AudioPlayer) (w : World) : World :=
  {| current_state := current_state w; openai_client := openai_client w;
     audio_player := p; state_file := state_file w;
     temp_dir := temp_dir w; speech_requests := speech_requests w;
     processes := processes w; tasks := tasks w |}.

Definition set_state_file (f : StateFile) (w : World) : World :=
  {| current_state := current_state w; openai_client := openai_client w;
     audio_player := audio_player w; state_file := f;
     temp_dir := temp_dir w; speech_requests := speech_requests w;
     processes := processes w; tasks := tasks w |}.

Definition set_temp_dir (d : option (gmap string FileEntry)) (w : World)
  : World :=
  {| current_state := current_state w; openai_client := openai_client w;
     audio_player := audio_player w; state_file := state_file w;
     temp_dir := d; speech_requests := speech_requests w;
     processes := processes w; tasks := tasks w |}.

Definition set_speech_requests (l : list SpeechRequest) (w : World) : World :=
  {| current_state := current_state w; openai_client := openai_client w;
     audio_player := audio_player w; state_file := state_file w;
     temp_dir := temp_dir w; speech_requests := l;
     processes := processes w; tasks := tasks w |}.

Definition set_processes (l : list (list string)) (w : World) : World :=
  {| current_state := current_state w; openai_client := openai_client w;
     audio_player := audio_player w; state_file := state_file w;
     temp_dir := temp_dir w; speech_requests := speech_requests w;
     processes := l; tasks := tasks w |}.

Definition set_tasks (l : list string) (w : World) : World :=
  {| current_state := current_state w; openai_client := openai_client w;
     audio_player := audio_player w; state_file := state_file w;
     temp_dir := temp_dir w; speech_requests := speech_requests w;
     processes := processes w; tasks := l |}.

(** ** Computations that read and write the world and may raise *)

Definition M (A : Type) : Type := World -> (Exc + A) * World.

#[global] Instance M_ret : MRet M := fun A x w => (inr x, w).

#[global] Instance M_bind : MBind M := fun A B f m w =>
  match m w with
  | (inr x, w') => f x w'
  | (inl e, w') => (inl e, w')
  end.

Definition raise {A : Type} (e : Exc) : M A := fun w => (inl e, w).
Definition get {A : Type} (f : World -> A) : M A := fun w => (inr (f w), w).
Definition modify (f : World -> World) : M unit := fun w => (inr tt, f w).
Definition lift {A : Type} (r : Exc + A) : M A := fun w => (r, w).

(** [try: body except Exception as e: handler(e)].  What the body did
    to the world before it raised stays done. *)
Definition try_except {A : Type} (body : M A) (handler : Exc -> M A) : M A :=
  fun w =>
    match body w with
    | (inr x, w') => (inr x, w')
    | (inl e, w') => handler e w'
    end.

(** [str(e)], as far as the handlers print it: the text of a
    [ValidationError] never reaches a result and is cut down to its
    first words. *)
Definition str (e : Exc) : string :=
  match e with
  | ValidationError errors =>
      pretty (length errors) +:+ " validation error"
  | TTSError message _ => message
  | Exception message => message
  end.

(** ** Preference store *)

Definition load_state : M unit :=
  try_except
    (f ← get state_file;
     match f with
     | NoFile => mret tt
     | Unreadable e => raise e
     | Contents None => raise (Exception "Expecting value")
     | Contents (Some data) =>
         s ← lift (UserState.new data);
         modify (set_current_state s)
     end)
    (fun _ => modify (set_current_state UserState.default)).

Definition save_state (env : Env) : M unit :=
  try_except
    match write_state env with
    | Written =>
        modify (fun w =>
          set_state_file
            (Contents (Some (UserState.model_dump (current_state w)))) w)
    | OpenRaises e => raise e
    | DumpRaises e => modify (set_state_file (Contents None));; raise e
    end
    (fun _ => mret tt).

(** ** Playing a file *)

Definition Popen (env : Env) (argv : list string) : M unit :=
  match popen env argv with
  | Some e => raise e
  | None => modify (fun w => set_processes (processes w ++ [argv]) w)
  end.

Definition powershell_script (file_path : string) : string :=
  Py.nl
  +:+ "        Add-Type -AssemblyName System.Windows.Forms" +:+ Py.nl
  +:+ "        $player = New-Object System.Media.SoundPlayer" +:+ Py.nl
  +:+ "        $player.SoundLocation = '"
  +:+ Py.replace_char (Ascii.ascii_of_nat 39) "''" file_path +:+ "'" +:+ Py.nl
  +:+ "        $player.Play()" +:+ Py.nl
  +:+ "        ".

Definition play (env : Env) (p : AudioPlayer) (file_path : string) : M unit :=
  match p with
  | AfplayPlayer => Popen env ["afplay"; file_path]
  | WindowsPlayer =>
      Popen env ["powershell"; "-Command"; powershell_script file_path]
  | LinuxPlayer command =>
      match command with
      | Some c =>
          if negb (Py.truthy c) then raise (Exception "No audio player available")
          else
            let args :=
              if String.eqb c "cvlc"
              then ["--play-and-exit"; "--intf"; "dummy"; file_path]
              else if String.eqb c "ffplay"
              then ["-nodisp"; "-autoexit"; file_path]
              else [file_path] in
            Popen env (c :: args)
      | None => raise (Exception "No audio player available")
      end
  | FallbackPlayer =>
      let cmd :=
        if String.eqb (platform_system env) "Darwin" then "open"
        else if String.eqb (platform_system env) "Windows" then "start"
        else "xdg-open" in
      Popen env [cmd; file_path]
  end.

(** ** Scratch directory *)

Definition sep (env : Env) : string :=
  if String.eqb (platform_system env) "Windows" then "\" else "/".

(** [a / b] of pathlib, for the normalised paths [gettempdir] returns:
    no second separator after a root, and nothing to join an empty
    path to. *)
Definition path_join (env : Env) (a b : string) : string :=
  if negb (Py.truthy a) then b
  else if Py.endswith (sep env) a then a +:+ b
  else a +:+ sep env +:+ b.

(** [str(CONFIG["temp_dir"] / name)] *)
Definition temp_path (env : Env) (name : string) : string :=
  path_join env (path_join env (gettempdir env) "summarize-mcp") name.

Definition ensure_temp_dir (env : Env) : M unit :=
  try_except
    match mkdir env with
    | Some e => raise e
    | None =>
        modify (fun w => set_temp_dir (Some (default ∅ (temp_dir w))) w)
    end
    (fun _ =>
       raise (TTSError "Failed to create temporary directory" "TEMP_DIR_ERROR")).

(** The names [glob("speech_*.mp3")] yields: the star stands for any
    run of characters, the empty one too. *)
Definition glob_match (name : string) : bool :=
  Py.startswith "speech_" name && Py.endswith ".mp3" name
  && (11 <=? String.length name)%nat.

Definition glob (files : gmap string FileEntry) : list string :=
  filter (fun name => glob_match name) (map_to_list files).*1.

Definition stat (name : string) : M FileEntry :=
  d ← get temp_dir;
  match d ≫= (fun files => files !! name) with
  | Some e => mret e
  | None => raise (Exception "No such file or directory")
  end.

Definition unlink (name : string) : M unit :=
  d ← get temp_dir;
  match d ≫= (fun files => files !! name) with
  | Some e =>
      if in_use e then raise (Exception "Permission denied")
      else modify (fun w => set_temp_dir (delete name <$> temp_dir w) w)
  | None => raise (Exception "No such file or directory")
  end.

Fixpoint for_each {A : Type} (l : list A) (body : A -> M unit) : M unit :=
  match l with
  | [] => mret tt
  | x :: rest => body x;; for_each rest body
  end.

(** [now - st_mtime > 3600], in binary64 *)
Definition older_than_an_hour (now mtime : float) : bool :=
  (3600 <? now - mtime)%float.

Definition cleanup_old_files (env : Env) : M unit :=
  try_except
    (d ← get temp_dir;
     match d with
     | None => mret tt
     | Some files =>
         let now := time_time env in
         for_each (glob files) (fun file =>
           try_except
             (e ← stat file;
              if older_than_an_hour now (st_mtime e) then unlink file
              else mret tt)
             (fun _ => mret tt))
     end)
    (fun _ => mret tt).

(** The body of the deferred [cleanup] task, once its sleep is over. *)
Definition cleanup (speech_file : string) : M unit :=
  try_except (unlink speech_file) (fun _ => mret tt).

(** ** Tool handlers *)

Definition ok_mark : string := "✅".
Definition fail_mark : string := "❌".

(** The [hasattr(e, "errors")] branch shared by the three handlers. *)
Definition invalid_arguments (errors : list ErrorDetails) : string :=
  fail_mark +:+ " Invalid arguments: "
  +:+ Py.join ", "
        (map (fun err => Py.join "." (loc err) +:+ ": " +:+ msg err) errors).

(** [int(time.time() * 1000)] *)
Definition timestamp_ms (env : Env) : M Z :=
  match Py.int (time_time env * 1000)%float with
  | Some z => mret z
  | None => raise (Exception "cannot convert float to integer")
  end.

(** [f"speech_{timestamp}.mp3"] *)
Definition speech_name (timestamp : Z) : string :=
  "speech_" +:+ pretty timestamp +:+ ".mp3".

(** [openai_client.audio.speech.create(...)]: the request goes out,
    then the provider answers or raises. *)
Definition audio_speech_create (env : Env) (req : SpeechRequest) : M unit :=
  c ← get openai_client;
  match c with
  | None => raise (Exception "'NoneType' object has no attribute 'audio'")
  | Some _ =>
      modify (fun w => set_speech_requests (speech_requests w ++ [req]) w);;
      match speech_create env req with
      | Some e => raise e
      | None => mret tt
      end
  end.

(** [response.stream_to_file(str(speech_file))].  The new entry stands
    for the file as it has just been written: dated at the clock
    reading of the call and not yet held open by a player. *)
Definition response_stream_to_file (env : Env) (name : string) : M unit :=
  match stream_to_file env (temp_path env name) with
  | Some e => raise e
  | None =>
      d ← get temp_dir;
      match d with
      | None => raise (Exception "No such file or directory")
      | Some files =>
          modify (set_temp_dir
            (Some (<[name := {| st_mtime := time_time env;
                                in_use := false |}]> files)))
      end
  end.

Definition play_summary_ok (voice summary : string) : string :=
  ok_mark +:+ " Summary converted to speech and playing in the background"
  +:+ Py.nl +:+ "Voice: " +:+ voice
  +:+ Py.nl +:+ "Length: " +:+ pretty (Py.len summary) +:+ " characters".

Definition play_summary_try (env : Env) (summary : string)
    (voice instructions : option string) : M string :=
  args ← lift (PlaySummaryArgs.new summary voice instructions);
  st ← get current_state;
  let voice :=
    Py.or_else (PlaySummaryArgs.voice args) (UserState.voice st) in
  let instructions :=
    Py.or_else (PlaySummaryArgs.instructions args) (UserState.tone st) in
  timestamp ← timestamp_ms env;
  let speech_file := speech_name timestamp in
  audio_speech_create env
    {| req_model := "gpt-4o-mini-tts";
       req_voice := voice;
       req_input := PlaySummaryArgs.summary args;
       req_instructions := instructions |};;
  response_stream_to_file env speech_file;;
  p ← get audio_player;
  match p with
  | Some player => play env player (temp_path env speech_file)
  | None => raise (Exception "'NoneType' object has no attribute 'play'")
  end;;
  modify (fun w => set_tasks (tasks w ++ [speech_file]) w);;
  mret (play_summary_ok voice (PlaySummaryArgs.summary args)).

Definition play_summary_except (e : Exc) : M string :=
  mret
    match e with
    | ValidationError errors => invalid_arguments errors
    | TTSError message code =>
        fail_mark +:+ " TTS Error (" +:+ code +:+ "): " +:+ message
    | Exception _ => fail_mark +:+ " Error playing summary: " +:+ str e
    end.

Definition play_summary (env : Env) (summary : string)
    (voice instructions : option string) : M string :=
  try_except (play_summary_try env summary voice instructions)
             play_summary_except.

Definition set_voice_ok (voice : string) : string :=
  ok_mark +:+ " Default voice set to: " +:+ voice +:+ Py.nl +:+ Py.nl
  +:+ "All future audio summaries will use this voice unless specifically overridden.".

Definition set_voice_try (env : Env) (voice : string) : M string :=
  args ← lift (SetVoiceArgs.new voice);
  modify (fun w =>
    set_current_state
      {| UserState.voice := SetVoiceArgs.voice args;
         UserState.tone := UserState.tone (current_state w) |} w);;
  save_state env;;
  mret (set_voice_ok (SetVoiceArgs.voice args)).

Definition set_voice_except (e : Exc) : M string :=
  mret
    match e with
    | ValidationError errors => invalid_arguments errors
    | _ => fail_mark +:+ " Error setting voice: " +:+ str e
    end.

Definition set_voice (env : Env) (voice : string) : M string :=
  try_except (set_voice_try env voice) set_voice_except.

Definition set_tone_ok (tone : string) : string :=
  ok_mark +:+ " Default tone set to: " +:+ Py.dquote +:+ tone +:+ Py.dquote
  +:+ Py.nl +:+ Py.nl
  +:+ "All future audio summaries will use this tone unless specifically overridden.".

Definition set_tone_try (env : Env) (tone : string) : M string :=
  args ← lift (SetToneArgs.new tone);
  modify (fun w =>
    set_current_state
      {| UserState.voice := UserState.voice (current_state w);
         UserState.tone := SetToneArgs.tone args |} w);;
  save_state env;;
  mret (set_tone_ok (SetToneArgs.tone args)).

Definition set_tone_except (e : Exc) : M string :=
  mret
    match e with
    | ValidationError errors => invalid_arguments errors
    | _ => fail_mark +:+ " Error setting tone: " +:+ str e
    end.

Definition set_tone (env : Env) (tone : string) : M string :=
  try_except (set_tone_try env tone) set_tone_except.

(** ** Server bootstrap *)

Definition initialize_server (env : Env) : M unit :=
  match getenv_OPENAI_API_KEY env with
  | Some api_key =>
      if negb (Py.truthy api_key)
      then raise (Exception "OPENAI_API_KEY environment variable is required")
      else
        match new_client env api_key with
        | Some e => raise e
        | None =>
            modify (set_openai_client (Some api_key));;
            let player := get_audio_player env in
            modify (set_audio_player player);;
            match player with
            | None =>
                raise (Exception "No audio player available. Please install an audio player (mpg123, sox, ffmpeg, or vlc on Linux)")
            | Some _ =>
                ensure_temp_dir env;;
                cleanup_old_files env;;
                load_state
            end
        end
  | None => raise (Exception "OPENAI_API_KEY environment variable is required")
  end.

(** The world when the module has been imported and nothing has run:
    the three globals at their module-level values, over whatever is on
    disk. *)
Definition module_world (f : StateFile)
    (d : option (gmap string FileEntry)) : World :=
  {| current_state := UserState.default;
     openai_client := None;
     audio_player := None;
     state_file := f;
     temp_dir := d;
     speech_requests := [];
     processes := [];
     tasks := [] |}.

(** One request of the protocol layer, and the server answering it. *)
Inductive Call :=
| PlaySummary (summary : string) (voice instructions : option string)
| SetVoice (voice : string)
| SetTone (tone : string).

Definition handle (env : Env) (c : Call) : M string :=
  match c with
  | PlaySummary summary voice instructions =>
      play_summary env summary voice instructions
  | SetVoice voice => set_voice env voice
  | SetTone tone => set_tone env tone
  end.

(** The states a running server goes through: the one its startup
    leaves, and the one each answered request leaves. *)
Inductive reachable : World -> Prop :=
| reachable_startup env f d w :
    initialize_server env (module_world f d) = (inr tt, w) ->
    reachable w
| reachable_call env c w :
    reachable w ->
    reachable (handle env c w).2.

(** * Vocabulary of the statements *)

(** ** Frames *)

(** A computation [keeps] a relation [R] on worlds when every run of it
    ends in a world related to the one it started in, whether it
    returns or raises. *)
Definition keeps (R : relation World) {A : Type} (m : M A) : Prop :=
  forall w, R w (m w).2.

(** The preference record, in memory and on disk, is as before. *)
Definition same_prefs (w w' : World) : Prop :=
  current_state w' = current_state w /\ state_file w' = state_file w.

(** ** Requests and answers *)

(** The request a call sends when it gets that far: arguments first,
    the stored preference where an argument is absent or empty. *)
Definition effective_request (summary : string)
    (voice instructions : option string) (st : UserState.t) : SpeechRequest :=
  {| req_model := "gpt-4o-mini-tts";
     req_voice := Py.or_else voice (UserState.voice st);
     req_input := summary;
     req_instructions := Py.or_else instructions (UserState.tone st) |}.

(** The [try] block of the handler a call is dispatched to. *)
Definition handle_try (env : Env) (c : Call) : M string :=
  match c with
  | PlaySummary summary voice instructions =>
      play_summary_try env summary voice instructions
  | SetVoice voice => set_voice_try env voice
  | SetTone tone => set_tone_try env tone
  end.

(** A message enumerates the allowed voices when it carries the
    validator's sentence, and with it each of the ten names. *)
Definition enumerates_voices (s : string) : Prop :=
  Py.contains voice_message s = true
  /\ Forall (fun v => Py.contains v s = true) VALID_VOICES.

Definition voice_rejected : string :=
  invalid_arguments [{| loc := ["voice"]; msg := value_error voice_message |}].

Definition summary_and_voice_rejected : string :=
  invalid_arguments [{| loc := ["summary"]; msg := string_too_short |};
                     {| loc := ["voice"]; msg := value_error voice_message |}].

(** The outcome of a call that turned a voice down: a failure string
    enumerating the allowed voices, both fields of the record in memory
    as they were in [w]. *)
Definition voice_turned_down (r : (Exc + string) * World) (w : World) : Prop :=
  exists s,
    r.1 = inr s
    /\ Py.startswith fail_mark s = true
    /\ enumerates_voices s
    /\ UserState.voice (current_state r.2) = UserState.voice (current_state w)
    /\ UserState.tone (current_state r.2) = UserState.tone (current_state w).

(** ** Restart and sweep *)

(** A new process over the disk [w] left behind: the module's globals
    are at their initial values again, then [load_state] runs. *)
Definition fresh_process_load (w : World) : World :=
  (load_state (module_world (state_file w) (temp_dir w))).2.

(** What the loop body does to the directory for one name: the entry
    goes when it is older than an hour and [unlink] does not raise. *)
Definition deletable (now : float) (e : FileEntry) : bool :=
  older_than_an_hour now (st_mtime e) && negb (in_use e).

Definition sweep_step (now : float) (d : gmap string FileEntry)
    (name : string) : gmap string FileEntry :=
  match d !! name with
  | Some e => if deletable now e then delete name d else d
  | None => d
  end.

(** ** Worked examples *)

(** The host of the worked examples: a Linux machine with [mpg123], a
    provider that answers, a disk that takes every write, and the clock
    at [t]. *)
Definition linux_host (t : float) : Env :=
  {| platform_system := "Linux";
     which := fun cmd =>
       if String.eqb cmd "mpg123" then Some "/usr/bin/mpg123" else None;
     getenv_OPENAI_API_KEY := Some "sk-test";
     new_client := fun _ => None;
     gettempdir := "/tmp";
     mkdir := None;
     time_time := t;
     speech_create := fun _ => None;
     stream_to_file := fun _ => None;
     popen := fun _ => None;
     write_state := Written |}.

(** The host of the examples with a home directory that cannot be
    written to. *)
Definition read_only_host (t : float) : Env :=
  {| platform_system := "Linux";
     which := which (linux_host t);
     getenv_OPENAI_API_KEY := Some "sk-test";
     new_client := fun _ => None;
     gettempdir := "/tmp";
     mkdir := None;
     time_time := t;
     speech_create := fun _ => None;
     stream_to_file := fun _ => None;
     popen := fun _ => None;
     write_state := OpenRaises (Exception "Permission denied") |}.

(** A server started on that host with nothing on disk. *)
Definition fresh_server : World :=
  (initialize_server (linux_host 1700000000) (module_world NoFile None)).2.

(** A server started over a state file whose tone is the empty string:
    [UserState] accepts it, no length is asked of the field. *)
Definition empty_tone_file : StateFile :=
  Contents (Some (JObject [("voice", JString "coral"); ("tone", JString "")])).

Definition empty_tone_server : World :=
  (initialize_server (linux_host 1700000000)
     (module_world empty_tone_file None)).2.

(** A state file that names a voice the provider does not have. *)
Definition unknown_voice_file : StateFile :=
  Contents (Some (JObject [("voice", JString "robot");
                           ("tone", JString "Speak slowly")])).

(** A scratch directory at 1700000000 s: an artifact 10000 s old, one
    exactly 3600 s old, one 10 s old, and an old file of another name. *)
Definition stale_entry : FileEntry :=
  {| st_mtime := 1699990000; in_use := false |}.
Definition hour_old_entry : FileEntry :=
  {| st_mtime := 1699996400; in_use := false |}.
Definition fresh_entry : FileEntry :=
  {| st_mtime := 1699999990; in_use := false |}.

Definition scratch_files : gmap string FileEntry :=
  {[ "speech_1699990000000.mp3" := stale_entry;
     "speech_1699996400000.mp3" := hour_old_entry;
     "speech_1699999990000.mp3" := fresh_entry;
     "notes.txt" := stale_entry ]}.

(** ** Selection and runs *)

(** [shutil.which(cmd)] is truthy: the executable is on the path. *)
Definition found (env : Env) (cmd : string) : bool :=
  match which env cmd with
  | Some path => Py.truthy path
  | None => false
  end.

(** The world after the server has answered the calls of [calls], each
    on the host it found at that moment. *)
Definition run_calls (w : World) (calls : list (Env * Call)) : World :=
  foldl (fun w ec => (handle ec.1 ec.2 w).2) w calls.

(** The voice a state file holds, if it holds one as a string, is one
    of the ten. *)
Definition file_voice_ok (f : StateFile) : Prop :=
  match f with
  | Contents (Some (JObject members)) =>
      match dict_get "voice" members with
      | Some (JString v) => v ∈ VALID_VOICES
      | _ => True
      end
  | _ => True
  end.

(** The key of the environment is set and not empty. *)
Definition api_key_set (env : Env) : bool :=
  match getenv_OPENAI_API_KEY env with
  | Some api_key => Py.truthy api_key
  | None => false
  end.

(** Everything but the scratch directory and the logs of what was
    sent, started and scheduled is as before. *)
Definition same_module (w w' : World) : Prop :=
  current_state w' = current_state w
  /\ state_file w' = state_file w
  /\ openai_client w' = openai_client w
  /\ audio_player w' = audio_player w.

(** What [OpenAI(api_key=...)] raises at startup, if it raises. *)
Definition client_error (env : Env) : option Exc :=
  match getenv_OPENAI_API_KEY env with
  | Some api_key => new_client env api_key
  | None => None
  end.


(** What startup raises without a key. *)
Definition key_required : Exc :=
  Exception "OPENAI_API_KEY environment variable is required".

(** A host of the examples on which no player can be started. *)
Definition no_player_host (t : float) : Env :=
  {| platform_system := "Linux";
     which := which (linux_host t);
     getenv_OPENAI_API_KEY := Some "sk-test";
     new_client := fun _ => None;
     gettempdir := "/tmp";
     mkdir := None;
     time_time := t;
     speech_create := fun _ => None;
     stream_to_file := fun _ => None;
     popen := fun _ => Some (Exception "No such file or directory: 'mpg123'");
     write_state := Written |}.

(** A host of the examples whose provider cannot be reached. *)
Definition unreachable_provider_host (t : float) : Env :=
  {| platform_system := "Linux";
     which := which (linux_host t);
     getenv_OPENAI_API_KEY := Some "sk-test";
     new_client := fun _ => None;
     gettempdir := "/tmp";
     mkdir := None;
     time_time := t;
     speech_create := fun _ => Some (Exception "Connection error.");
     stream_to_file := fun _ => None;
     popen := fun _ => None;
     write_state := Written |}.

(** A state file whose tone is a number. *)
Definition numeric_tone_file : StateFile :=
  Contents (Some (JObject [("voice", JString "nova"); ("tone", JInt 3)])).

(** * Properties *)

(** ** The embedding on examples *)

Example int_truncates :
  Py.int (1700000000.5 * 1000)%float = Some 1700000000500%Z
  /\ Py.int (-2.75)%float = Some (-2)%Z
  /\ Py.int (PrimFloat.infinity) = None.
Proof. vm_compute. auto. Qed.

Example len_counts_code_points : Py.len "❌ ok" = 4.
Proof. reflexivity. Qed.

Example glob_match_names :
  glob_match "speech_1700000000000.mp3" = true
  /\ glob_match "speech_.mp3" = true
  /\ glob_match "speech_mp3" = false
  /\ glob_match "old_speech_1.mp3" = false
  /\ glob_match "speech_1.mp3.part" = false.
Proof. by vm_compute. Qed.

Example an_hour_is_not_older_than_an_hour :
  older_than_an_hour 1700000000 1699996400 = false
  /\ older_than_an_hour 1700000000 1699996399.5 = true.
Proof. by vm_compute. Qed.

Example players_by_host :
  get_audio_player (linux_host 0) = Some (LinuxPlayer (Some "mpg123"))
  /\ (forall env, platform_system env = "Windows" ->
        get_audio_player env = Some WindowsPlayer)
  /\ (forall env, platform_system env = "FreeBSD" ->
        get_audio_player env = Some FallbackPlayer).
Proof.
  split; [by vm_compute|].
  split; intros env H; unfold get_audio_player; simpl; by rewrite H.
Qed.

Example startup_without_state_file :
  current_state fresh_server
  = {| UserState.voice := "coral";
       UserState.tone := default_instructions |}.
Proof. by vm_compute. Qed.

Example set_voice_then_play_uses_it :
  let w := (set_voice (linux_host 1700000001) "nova" fresh_server).2 in
  (play_summary (linux_host 1700000002) "hello" None None w).1
  = inr (play_summary_ok "nova" "hello").
Proof. by vm_compute. Qed.

(** ** Audio player selection *)

Section Selection.
Variable env : Env.

Lemma first_available_spec (l : list AudioPlayer) :
  match first_available env l with
  | Some chosen =>
      exists before p after,
        l = before ++ p :: after
        /\ Forall (fun q => (check env q).1 = false) before
        /\ check env p = (true, chosen)
  | None => Forall (fun q => (check env q).1 = false) l
  end.
Proof.
  induction l as [|p rest IH]; simpl; [constructor|].
  destruct (check env p) as [ok p'] eqn:Hp.
  destruct ok.
  - exists [], p, rest. by repeat split.
  - destruct (first_available env rest) as [chosen|].
    + destruct IH as (before & q & after & -> & Hall & Hq).
      exists (p :: before), q, after. repeat split; [|done].
      constructor; [by rewrite Hp | done].
    + constructor; [by rewrite Hp | done].
Qed.

Lemma fallback_always_available : (check env FallbackPlayer).1 = true.
Proof. reflexivity. Qed.

(** C3. The selector walks the fixed list afplay, Windows, Linux
    probe, fallback in that order and returns the first candidate
    whose check succeeds; as the fallback's check succeeds on every
    host, the result is never [None]. *)
Theorem get_audio_player_first_available :
  players = [AfplayPlayer; WindowsPlayer; LinuxPlayer None; FallbackPlayer]
  /\ (check env FallbackPlayer).1 = true
  /\ exists before p after chosen,
       players = before ++ p :: after
       /\ Forall (fun q => (check env q).1 = false) before
       /\ check env p = (true, chosen)
       /\ get_audio_player env = Some chosen.
Proof.
  split; [done|]. split; [done|].
  pose proof (first_available_spec players) as H.
  unfold get_audio_player.
  destruct (first_available env players) as [chosen|] eqn:Hsel.
  - destruct H as (before & p & after & Hl & Hall & Hp).
    by exists before, p, after, chosen.
  - exfalso. unfold players in H.
    apply Forall_cons in H as [_ H]. apply Forall_cons in H as [_ H].
    apply Forall_cons in H as [_ H]. apply Forall_cons in H as [H _].
    discriminate H.
Qed.
End Selection.

(** ** Strings *)

Lemma startswith_app (p s : string) : Py.startswith p (p +:+ s) = true.
Proof.
  unfold Py.startswith. induction p as [|c p IH]; simpl.
  - by destruct s.
  - rewrite IH. by destruct (Ascii.ascii_dec c c).
Qed.

Lemma fail_mark_not_ok (s : string) :
  Py.startswith ok_mark (fail_mark +:+ s) = false.
Proof. reflexivity. Qed.

Lemma ok_mark_not_fail (s : string) :
  Py.startswith fail_mark (ok_mark +:+ s) = false.
Proof. reflexivity. Qed.

Lemma valid_voice_truthy (v : string) : v ∈ VALID_VOICES -> Py.truthy v = true.
Proof.
  unfold VALID_VOICES. rewrite !elem_of_cons, elem_of_nil.
  intros H. by repeat (destruct H as [->|H]; [done|]).
Qed.

(** ** The monad *)

Lemma bind_inr {A B : Type} (m : M A) (f : A -> M B) (w w' : World) (y : B) :
  (m ≫= f) w = (inr y, w') ->
  exists x w1, m w = (inr x, w1) /\ f x w1 = (inr y, w').
Proof.
  unfold mbind, M_bind. destruct (m w) as [[e|x] w1]; [done|]. eauto.
Qed.

Lemma bind_run {A B : Type} (m : M A) (f : A -> M B) (w w1 : World) (x : A) :
  m w = (inr x, w1) -> (m ≫= f) w = f x w1.
Proof. unfold mbind, M_bind. by intros ->. Qed.

Lemma bind_raise {A B : Type} (m : M A) (f : A -> M B) (w w1 : World) (e : Exc) :
  m w = (inl e, w1) -> (m ≫= f) w = (inl e, w1).
Proof. unfold mbind, M_bind. by intros ->. Qed.

Section Frame.
Context (R : relation World) `{!PreOrder R}.

Lemma keeps_ret {A : Type} (x : A) : keeps R (mret x).
Proof. intros w. simpl. reflexivity. Qed.

Lemma keeps_raise {A : Type} (e : Exc) : keeps R (@raise A e).
Proof. intros w. simpl. reflexivity. Qed.

Lemma keeps_get {A : Type} (f : World -> A) : keeps R (get f).
Proof. intros w. simpl. reflexivity. Qed.

Lemma keeps_lift {A : Type} (r : Exc + A) : keeps R (lift r).
Proof. intros w. simpl. reflexivity. Qed.

Lemma keeps_modify (f : World -> World) :
  (forall w, R w (f w)) -> keeps R (modify f).
Proof. intros H w. apply H. Qed.

Lemma keeps_bind {A B : Type} (m : M A) (f : A -> M B) :
  keeps R m -> (forall x, keeps R (f x)) -> keeps R (m ≫= f).
Proof.
  intros Hm Hf w. specialize (Hm w). unfold mbind, M_bind.
  destruct (m w) as [[e|x] w1]; simpl in *; [done|].
  etrans; [exact Hm | apply Hf].
Qed.

Lemma keeps_try {A : Type} (body : M A) (handler : Exc -> M A) :
  keeps R body -> (forall e, keeps R (handler e)) -> keeps R (try_except body handler).
Proof.
  intros Hb Hh w. specialize (Hb w). unfold try_except.
  destruct (body w) as [[e|x] w1]; simpl in *; [|done].
  etrans; [exact Hb | apply Hh].
Qed.

Lemma keeps_for_each {A : Type} (l : list A) (body : A -> M unit) :
  (forall x, keeps R (body x)) -> keeps R (for_each l body).
Proof.
  intros Hb. induction l as [|x l IH]; simpl.
  - apply keeps_ret.
  - apply keeps_bind; [apply Hb | intros _; apply IH].
Qed.
End Frame.

#[global] Instance same_prefs_preorder : PreOrder same_prefs.
Proof.
  split.
  - by intros w.
  - intros w1 w2 w3 [H1 H2] [H3 H4]. split; congruence.
Qed.

Ltac frame :=
  repeat first
    [ match goal with |- PreOrder _ => apply _ end
    | apply keeps_ret | apply keeps_raise | apply keeps_get | apply keeps_lift
    | apply keeps_bind; [| |intros ?] | apply keeps_try; [| |intros ?]
    | apply keeps_modify; intros ?; done
    | case_match ].

Lemma play_keeps_prefs (env : Env) (p : AudioPlayer) (file_path : string) :
  keeps same_prefs (play env p file_path).
Proof. destruct p; unfold play, Popen; frame. Qed.

Lemma play_summary_keeps_prefs
    (env : Env) (summary : string) (voice instructions : option string) :
  keeps same_prefs (play_summary env summary voice instructions).
Proof.
  unfold play_summary, play_summary_try, play_summary_except, timestamp_ms,
    audio_speech_create, response_stream_to_file.
  frame; apply play_keeps_prefs.
Qed.

(** ** What [play_summary] sends to the provider *)

Arguments speech_name : simpl never.
Arguments play_summary_ok : simpl never.
Arguments temp_path : simpl never.
Arguments powershell_script : simpl never.
Arguments invalid_arguments : simpl never.
Arguments voice_message : simpl never.
Arguments Py.len : simpl never.

Ltac run :=
  unfold mbind, M_bind, mret, M_ret, lift, get, modify, raise, try_except
    in *;
  simpl in *.

Lemma play_keeps_requests (env : Env) (p : AudioPlayer) (file_path : string)
    (w : World) :
  speech_requests (play env p file_path w).2 = speech_requests w.
Proof.
  destruct p; unfold play, Popen; run; repeat case_match; run; done.
Qed.

Lemma play_summary_try_requests (env : Env) (summary : string)
    (voice instructions : option string) (w : World) :
  let req := effective_request summary voice instructions (current_state w) in
  match play_summary_try env summary voice instructions w with
  | (inr s, w') =>
      s = play_summary_ok (req_voice req) summary
      /\ speech_requests w' = speech_requests w ++ [req]
  | (inl _, w') =>
      speech_requests w' = speech_requests w
      \/ speech_requests w' = speech_requests w ++ [req]
  end.
Proof.
  unfold play_summary_try, PlaySummaryArgs.new, model_result, timestamp_ms,
    audio_speech_create, response_stream_to_file, effective_request.
  run.
  repeat (case_match; run; simplify_eq/=); auto;
    match goal with
    | H : play ?env ?p ?f ?w = _ |- _ =>
        pose proof (play_keeps_requests env p f w) as Hp;
        rewrite H in Hp; simpl in Hp; rewrite Hp; simpl; auto
    end.
Qed.

Lemma play_summary_unfold (env : Env) (summary : string)
    (voice instructions : option string) (w : World) :
  play_summary env summary voice instructions w =
  match play_summary_try env summary voice instructions w with
  | (inr s, w') => (inr s, w')
  | (inl e, w') => ((play_summary_except e w').1, w')
  end.
Proof.
  unfold play_summary, try_except.
  by destruct (play_summary_try env summary voice instructions w) as [[e|s] w'].
Qed.

Lemma play_summary_except_fails (e : Exc) (w : World) :
  exists s, play_summary_except e w = (inr s, w)
            /\ Py.startswith fail_mark s = true
            /\ Py.startswith ok_mark s = false.
Proof.
  unfold play_summary_except, invalid_arguments. destruct e; run;
    eexists; (split; [reflexivity|]); by rewrite startswith_app.
Qed.

Lemma play_summary_requests (env : Env) (summary : string)
    (voice instructions : option string) (w : World) :
  let req := effective_request summary voice instructions (current_state w) in
  let r := play_summary env summary voice instructions w in
  (speech_requests r.2 = speech_requests w
   \/ speech_requests r.2 = speech_requests w ++ [req])
  /\ forall s, r.1 = inr s -> Py.startswith ok_mark s = true ->
       s = play_summary_ok (req_voice req) summary
       /\ speech_requests r.2 = speech_requests w ++ [req].
Proof.
  intros req r. subst r. rewrite play_summary_unfold.
  pose proof (play_summary_try_requests env summary voice instructions w) as H.
  simpl in H. fold req in H.
  destruct (play_summary_try env summary voice instructions w) as [[e|s] w'].
  - destruct (play_summary_except_fails e w') as (s & -> & _ & Hno). simpl.
    split; [done|]. intros s' [= <-] Hok. congruence.
  - destruct H as [-> Hreq]. simpl. split; [by right|].
    by intros s' [= <-] _.
Qed.

(** ** Rejected arguments *)

Lemma voice_rejected_enumerates :
  Py.startswith fail_mark voice_rejected = true
  /\ enumerates_voices voice_rejected.
Proof.
  split; [reflexivity|]. split; [reflexivity|].
  unfold VALID_VOICES. repeat (constructor; [reflexivity|]). constructor.
Qed.

Lemma summary_and_voice_rejected_enumerates :
  Py.startswith fail_mark summary_and_voice_rejected = true
  /\ enumerates_voices summary_and_voice_rejected.
Proof.
  split; [reflexivity|]. split; [reflexivity|].
  unfold VALID_VOICES. repeat (constructor; [reflexivity|]). constructor.
Qed.

Lemma set_voice_invalid (env : Env) (v : string) (w : World) :
  v ∉ VALID_VOICES -> set_voice env v w = (inr voice_rejected, w).
Proof.
  intros Hv. unfold set_voice, set_voice_try, SetVoiceArgs.new,
    SetVoiceArgs.validate_voice.
  by rewrite bool_decide_false.
Qed.

Lemma play_summary_invalid_voice (env : Env) (summary v : string)
    (instructions : option string) (w : World) :
  v ∉ VALID_VOICES ->
  play_summary env summary (Some v) instructions w =
  (inr (if (1 <=? Py.len summary)%nat then voice_rejected
        else summary_and_voice_rejected), w).
Proof.
  intros Hv. unfold play_summary, play_summary_try, PlaySummaryArgs.new,
    PlaySummaryArgs.validate_voice.
  rewrite bool_decide_false by done.
  by destruct (1 <=? Py.len summary)%nat.
Qed.

(** C2. A voice outside the ten-value set makes [set_voice], and
    [play_summary] given it as the explicit voice, return a failure
    string that enumerates the allowed voices, and neither field of the
    preference record in memory changes. *)
Theorem invalid_voice_rejected (env : Env) (v : string) (w : World) :
  v ∉ VALID_VOICES ->
  voice_turned_down (set_voice env v w) w
  /\ forall (summary : string) (instructions : option string),
       voice_turned_down (play_summary env summary (Some v) instructions w) w.
Proof.
  intros Hv. split.
  - exists voice_rejected. rewrite set_voice_invalid by done.
    destruct voice_rejected_enumerates. done.
  - intros summary instructions.
    rewrite play_summary_invalid_voice by done. eexists.
    split; [reflexivity|].
    destruct (1 <=? Py.len summary)%nat;
      [destruct voice_rejected_enumerates
      |destruct summary_and_voice_rejected_enumerates]; done.
Qed.

Lemma invalid_voice_rejected_witness :
  ("robot" ∉ VALID_VOICES)
  /\ voice_turned_down
       (set_voice (linux_host 1700000001) "robot" fresh_server) fresh_server
  /\ voice_turned_down
       (play_summary (linux_host 1700000001) "hello" (Some "robot") None
          fresh_server) fresh_server.
Proof.
  assert (Hv : "robot" ∉ VALID_VOICES) by compute_done.
  split; [exact Hv|].
  destruct (invalid_voice_rejected (linux_host 1700000001) "robot"
              fresh_server Hv) as [Hset Hplay].
  split; [exact Hset | apply Hplay].
Defined.

(** C7. An empty summary is answered with a validation failure naming
    the [summary] field; the provider is not called and the scratch
    directory is as before: validation comes first. *)
Theorem empty_summary_rejected
    (env : Env) (voice instructions : option string) (w : World) :
  exists s w',
    play_summary env "" voice instructions w = (inr s, w')
    /\ Py.startswith
         (fail_mark +:+ " Invalid arguments: summary: " +:+ string_too_short)
         s = true
    /\ speech_requests w' = speech_requests w
    /\ temp_dir w' = temp_dir w.
Proof.
  unfold play_summary, play_summary_try, PlaySummaryArgs.new.
  destruct (PlaySummaryArgs.validate_voice voice); eexists _, w; done.
Qed.

(** ** An explicit voice *)

Lemma play_summary_world (env : Env) (summary : string)
    (voice instructions : option string) (w : World) :
  (play_summary env summary voice instructions w).2
  = (play_summary_try env summary voice instructions w).2.
Proof.
  rewrite play_summary_unfold.
  by destruct (play_summary_try env summary voice instructions w) as [[e|s] w'].
Qed.

Lemma args_accepted (summary : string) (voice instructions : option string) :
  (1 <= Py.len summary)%nat ->
  (forall v, voice = Some v -> v ∈ VALID_VOICES) ->
  PlaySummaryArgs.new summary voice instructions
  = inr {| PlaySummaryArgs.summary := summary;
           PlaySummaryArgs.voice := voice;
           PlaySummaryArgs.instructions := instructions |}.
Proof.
  intros Hlen Hv. unfold PlaySummaryArgs.new, PlaySummaryArgs.validate_voice.
  destruct (Nat.leb_spec 1 (Py.len summary)); [|lia].
  destruct voice as [v|]; [|done].
  by rewrite bool_decide_true by auto.
Qed.

(** Past validation, with a client and a clock reading that converts,
    the request goes out whatever happens afterwards. *)
Lemma play_summary_try_sends (env : Env) (summary : string)
    (voice instructions : option string) (w : World) :
  (1 <= Py.len summary)%nat ->
  (forall v, voice = Some v -> v ∈ VALID_VOICES) ->
  openai_client w <> None ->
  Py.int (time_time env * 1000)%float <> None ->
  speech_requests (play_summary_try env summary voice instructions w).2
  = speech_requests w
    ++ [effective_request summary voice instructions (current_state w)].
Proof.
  intros Hlen Hv Hc Ht. unfold play_summary_try.
  rewrite args_accepted by done.
  unfold timestamp_ms, audio_speech_create, response_stream_to_file,
    effective_request.
  run.
  repeat (case_match; run; simplify_eq/=); auto;
    match goal with
    | H : play ?env ?p ?f ?w = _ |- _ =>
        pose proof (play_keeps_requests env p f w) as Hp;
        rewrite H in Hp; simpl in Hp; by rewrite Hp
    end.
Qed.

(** C8. With a valid explicit voice [V] and a non-empty summary, the
    call works with [V]: the request it sends carries [V], and so does
    the success message.  The stored record is as before, in memory
    (both fields) and on disk (nothing is written back). *)
Theorem explicit_voice_for_this_call_only (env : Env) (V summary : string)
    (instructions : option string) (w : World) :
  V ∈ VALID_VOICES ->
  (1 <= Py.len summary)%nat ->
  let r := play_summary env summary (Some V) instructions w in
  let req :=
    {| req_model := "gpt-4o-mini-tts";
       req_voice := V;
       req_input := summary;
       req_instructions :=
         Py.or_else instructions (UserState.tone (current_state w)) |} in
  UserState.voice (current_state r.2) = UserState.voice (current_state w)
  /\ UserState.tone (current_state r.2) = UserState.tone (current_state w)
  /\ state_file r.2 = state_file w
  /\ (speech_requests r.2 = speech_requests w
      \/ speech_requests r.2 = speech_requests w ++ [req])
  /\ (openai_client w <> None ->
      Py.int (time_time env * 1000)%float <> None ->
      speech_requests r.2 = speech_requests w ++ [req])
  /\ (forall s, r.1 = inr s -> Py.startswith ok_mark s = true ->
      s = play_summary_ok V summary).
Proof.
  intros HV Hlen r req.
  assert (Hreq : effective_request summary (Some V) instructions
                   (current_state w) = req).
  { unfold effective_request, req. simpl. by rewrite valid_voice_truthy. }
  destruct (play_summary_keeps_prefs env summary (Some V) instructions w)
    as [Hst Hfile]. fold r in Hst, Hfile.
  destruct (play_summary_requests env summary (Some V) instructions w)
    as [Hsent Hok]. fold r in Hsent, Hok. rewrite Hreq in Hsent, Hok.
  repeat split; [by rewrite Hst | by rewrite Hst | done | done | |].
  - intros Hc Ht. subst r. rewrite play_summary_world.
    rewrite play_summary_try_sends; [by rewrite Hreq|done| |done|done].
    by intros v [= <-].
  - intros s Hs Hmark. by destruct (Hok s Hs Hmark).
Qed.

Lemma explicit_voice_for_this_call_only_witness :
  ("nova" ∈ VALID_VOICES)
  /\ (1 <= Py.len "hello")%nat
  /\ current_state
       (play_summary (linux_host 1700000001) "hello" (Some "nova") None
          fresh_server).2
     = current_state fresh_server
  /\ speech_requests
       (play_summary (linux_host 1700000001) "hello" (Some "nova") None
          fresh_server).2
     = [{| req_model := "gpt-4o-mini-tts"; req_voice := "nova";
           req_input := "hello"; req_instructions := default_instructions |}].
Proof.
  assert (HV : "nova" ∈ VALID_VOICES) by compute_done.
  assert (Hlen : (1 <= Py.len "hello")%nat) by (vm_compute; lia).
  destruct (explicit_voice_for_this_call_only (linux_host 1700000001)
              "nova" "hello" None fresh_server HV Hlen)
    as (Hv & Ht & _ & _ & Hsent & _).
  split; [exact HV|]. split; [exact Hlen|]. split.
  - destruct (current_state (play_summary _ _ _ _ _).2),
      (current_state fresh_server). simpl in *. congruence.
  - rewrite Hsent; [reflexivity | discriminate | by vm_compute].
Defined.

(** ** Empty instructions *)

(** C10 fails on the code: [UserState] asks no length of the tone,
    so a state file with an empty tone is loaded as it stands, which
    [SetToneArgs] would have turned down; the server started over it
    passes the empty string to the provider as instructions when
    [play_summary] is given empty instructions. *)
Lemma empty_instructions_reach_provider :
  reachable empty_tone_server
  /\ speech_requests
       (play_summary (linux_host 1700000001) "hello" None (Some "")
          empty_tone_server).2
     = [{| req_model := "gpt-4o-mini-tts"; req_voice := "coral";
           req_input := "hello"; req_instructions := "" |}].
Proof.
  split.
  - by apply (reachable_startup (linux_host 1700000000) empty_tone_file None).
  - by vm_compute.
Qed.

(** X27. Empty instructions are treated as absent ones: the two
    calls are the same computation, and the instructions of the
    request sent are the stored tone; when the stored tone is not
    empty, no empty string reaches the provider as instructions. *)
Theorem empty_instructions_fall_back_to_tone
    (env : Env) (summary : string) (voice : option string) (w : World) :
  let r := play_summary env summary voice (Some "") w in
  let req := effective_request summary voice (Some "") (current_state w) in
  r = play_summary env summary voice None w
  /\ (speech_requests r.2 = speech_requests w
      \/ speech_requests r.2 = speech_requests w ++ [req])
  /\ req_instructions req = UserState.tone (current_state w)
  /\ (UserState.tone (current_state w) <> "" -> req_instructions req <> "").
Proof.
  intros r req. split; [|split; [|done]].
  - subst r. unfold play_summary, play_summary_try, PlaySummaryArgs.new,
      model_result.
    by case_match.
  - by destruct (play_summary_requests env summary voice (Some "") w).
Qed.

(** ** Handlers answer with a string *)

Lemma save_state_returns (env : Env) (w : World) :
  (save_state env w).1 = inr tt.
Proof. unfold save_state. by destruct (write_state env); run. Qed.

Lemma set_voice_try_ok (env : Env) (voice : string) (w w' : World) (s : string) :
  set_voice_try env voice w = (inr s, w') ->
  s = set_voice_ok voice /\ voice ∈ VALID_VOICES.
Proof.
  unfold set_voice_try. intros H.
  apply bind_inr in H as (args & w1 & Hargs & H).
  apply bind_inr in H as ([] & w2 & _ & H).
  apply bind_inr in H as ([] & w3 & _ & H).
  unfold lift, SetVoiceArgs.new, SetVoiceArgs.validate_voice in Hargs.
  case_bool_decide; simplify_eq/=. by injection H as <- _.
Qed.

Lemma set_tone_try_ok (env : Env) (tone : string) (w w' : World) (s : string) :
  set_tone_try env tone w = (inr s, w') ->
  s = set_tone_ok tone /\ (1 <= Py.len tone)%nat.
Proof.
  unfold set_tone_try. intros H.
  apply bind_inr in H as (args & w1 & Hargs & H).
  apply bind_inr in H as ([] & w2 & _ & H).
  apply bind_inr in H as ([] & w3 & _ & H).
  unfold lift, SetToneArgs.new in Hargs.
  destruct (Nat.leb_spec 1 (Py.len tone)); simplify_eq/=.
  by injection H as <- _.
Qed.

(** C6. Whatever the arguments, and whatever the provider and the file
    system raise during the call, each of the three handlers returns a
    string and raises nothing.  When its [try] block raised, the string
    begins with the failure marker; otherwise it is the block's own
    result, which begins with the success marker. *)
Theorem handlers_return_strings (env : Env) (c : Call) (w : World) :
  exists s,
    (handle env c w).1 = inr s
    /\ match (handle_try env c w).1 with
       | inl _ => Py.startswith fail_mark s = true
       | inr s' => s = s' /\ Py.startswith ok_mark s = true
       end.
Proof.
  destruct c as [summary voice instructions|voice|tone]; simpl.
  - rewrite play_summary_unfold.
    pose proof (play_summary_try_requests env summary voice instructions w) as H.
    simpl in H.
    destruct (play_summary_try env summary voice instructions w) as [[e|s] w'].
    + destruct (play_summary_except_fails e w') as (s & -> & Hs & _).
      by exists s.
    + destruct H as [-> _]. eexists. split; [reflexivity|].
      split; [done|]. apply startswith_app.
  - unfold set_voice, try_except.
    destruct (set_voice_try env voice w) as [[e|s] w'] eqn:Htry; simpl.
    + eexists. split; [reflexivity|].
      unfold invalid_arguments. destruct e; apply startswith_app.
    + apply set_voice_try_ok in Htry as [-> _].
      eexists. split; [reflexivity|]. split; [done|]. apply startswith_app.
  - unfold set_tone, try_except.
    destruct (set_tone_try env tone w) as [[e|s] w'] eqn:Htry; simpl.
    + eexists. split; [reflexivity|].
      unfold invalid_arguments. destruct e; apply startswith_app.
    + apply set_tone_try_ok in Htry as [-> _].
      eexists. split; [reflexivity|]. split; [done|]. apply startswith_app.
Qed.

(** ** Preference store *)

Lemma new_model_dump (s : UserState.t) :
  UserState.new (UserState.model_dump s) = inr s.
Proof. by destruct s. Qed.





(** What [load_state] does with each kind of file. *)
Lemma load_state_no_file (w : World) :
  state_file w = NoFile -> load_state w = (inr tt, w).
Proof. intros H. unfold load_state. run. by rewrite H. Qed.

Lemma load_state_unusable (w : World) :
  (exists e, state_file w = Unreadable e) \/ state_file w = Contents None ->
  current_state (load_state w).2 = UserState.default.
Proof. intros [[e H]|H]; unfold load_state; run; by rewrite H. Qed.

Lemma load_state_voice_absent (members : list (string * json)) (w : World) :
  state_file w = Contents (Some (JObject members)) ->
  dict_get "voice" members = None ->
  UserState.voice (current_state (load_state w).2) = default_voice.
Proof.
  intros Hf Hv. unfold load_state, UserState.new, UserState.field. run.
  rewrite Hf, Hv. by repeat (case_match; run; simplify_eq/=).
Qed.

Lemma load_state_voice_not_a_string (members : list (string * json))
    (v : json) (w : World) :
  state_file w = Contents (Some (JObject members)) ->
  dict_get "voice" members = Some v ->
  (forall s, v <> JString s) ->
  current_state (load_state w).2 = UserState.default.
Proof.
  intros Hf Hv Hs. unfold load_state, UserState.new, UserState.field. run.
  rewrite Hf, Hv.
  destruct v; try (by repeat (case_match; run; simplify_eq/=)).
  by destruct (Hs s).
Qed.

(** A string voice is taken as it stands, in the set or not. *)
Lemma load_state_voice_string (members : list (string * json))
    (v t_ : string) (w : World) :
  state_file w = Contents (Some (JObject members)) ->
  dict_get "voice" members = Some (JString v) ->
  dict_get "tone" members = Some (JString t_) ->
  current_state (load_state w).2 = {| UserState.voice := v; UserState.tone := t_ |}.
Proof.
  intros Hf Hv Ht. unfold load_state, UserState.new, UserState.field. run.
  by rewrite Hf, Hv, Ht.
Qed.

(** The handlers keep a valid voice valid. *)
Lemma handle_keeps_valid_voice (env : Env) (c : Call) (w : World) :
  UserState.voice (current_state w) ∈ VALID_VOICES ->
  UserState.voice (current_state (handle env c w).2) ∈ VALID_VOICES.
Proof.
  intros Hv. destruct c as [summary voice instructions|voice|tone]; simpl.
  - destruct (play_summary_keeps_prefs env summary voice instructions w)
      as [-> _]. done.
  - unfold set_voice, set_voice_try, SetVoiceArgs.new,
      SetVoiceArgs.validate_voice, save_state.
    case_bool_decide; run; [|done]. by destruct (write_state env); run.
  - unfold set_tone, set_tone_try, SetToneArgs.new, save_state.
    destruct (1 <=? Py.len tone)%nat; run; [|done].
    by destruct (write_state env); run.
Qed.

(** C1 fails on the code: [UserState] carries no validator, so a
    string voice read from the state file becomes the stored voice
    whether or not it is one of the ten; the server reaches a state
    whose voice is outside the set, and uses it. *)
Theorem load_state_accepts_unknown_voice :
  let w := (initialize_server (linux_host 1700000000)
              (module_world unknown_voice_file None)).2 in
  reachable w
  /\ UserState.voice (current_state w) = "robot"
  /\ ("robot" ∉ VALID_VOICES)
  /\ speech_requests
       (play_summary (linux_host 1700000001) "hello" None None w).2
     = [{| req_model := "gpt-4o-mini-tts"; req_voice := "robot";
           req_input := "hello"; req_instructions := "Speak slowly" |}].
Proof.
  split; [|split; [|split]].
  - by apply (reachable_startup (linux_host 1700000000) unknown_voice_file None).
  - by vm_compute.
  - compute_done.
  - by vm_compute.
Qed.

(** ** The startup sweep *)

Lemma for_each_fold {A : Type} (body : A -> M unit)
    (step : gmap string FileEntry -> A -> gmap string FileEntry)
    (l : list A) :
  (forall x w d, temp_dir w = Some d ->
     exists w', body x w = (inr tt, w') /\ temp_dir w' = Some (step d x)) ->
  forall w d, temp_dir w = Some d ->
    exists w', for_each l body w = (inr tt, w')
               /\ temp_dir w' = Some (foldl step d l).
Proof.
  intros Hbody. induction l as [|x l IH]; intros w d Hd; simpl.
  - by exists w.
  - destruct (Hbody x w d Hd) as (w1 & Hx & Hd1).
    destruct (IH w1 (step d x) Hd1) as (w2 & Hl & Hd2).
    exists w2. by rewrite (bind_run _ _ _ _ _ Hx).
Qed.

Lemma sweep_fold_lookup (now : float) (l : list string) :
  forall (d : gmap string FileEntry) (k : string),
    foldl (sweep_step now) d l !! k =
    match d !! k with
    | Some e => if bool_decide (k ∈ l) && deletable now e then None else Some e
    | None => None
    end.
Proof.
  induction l as [|n l IH]; intros d k; simpl.
  - by destruct (d !! k).
  - rewrite IH. unfold sweep_step. destruct (decide (k = n)) as [->|Hne].
    + rewrite (bool_decide_true (n ∈ n :: l)) by apply list_elem_of_here.
      destruct (d !! n) as [e|] eqn:Hn; simpl.
      * destruct (deletable now e) eqn:He.
        -- by rewrite lookup_delete_eq.
        -- rewrite Hn, He. by rewrite andb_false_r.
      * by rewrite Hn.
    + assert (Hk : bool_decide (k ∈ n :: l) = bool_decide (k ∈ l)).
      { apply bool_decide_ext. rewrite elem_of_cons.
        split; [by intros [?|?] | by right]. }
      rewrite Hk.
      destruct (d !! n) as [e|]; [|done].
      destruct (deletable now e); [|done]. by rewrite lookup_delete_ne.
Qed.

Lemma elem_of_glob (files : gmap string FileEntry) (k : string) :
  k ∈ glob files <-> glob_match k = true /\ is_Some (files !! k).
Proof.
  unfold glob. rewrite list_elem_of_filter, list_elem_of_fmap. split.
  - intros [Hm ([k' e] & -> & Hin)]. apply elem_of_map_to_list in Hin.
    split; [by apply Is_true_true|]. by exists e.
  - intros [Hm [e He]]. split; [by apply Is_true_true|].
    exists (k, e). split; [done|]. by apply elem_of_map_to_list.
Qed.

(** C9, as stated, fails: a stale artifact that [unlink] cannot remove
    (a player still holds it) is in the directory after the startup
    sweep. *)
Lemma stale_artifact_in_use_survives :
  let name := "speech_1699990000000.mp3" in
  let e := {| st_mtime := 1699990000; in_use := true |} in
  let w := (initialize_server (linux_host 1700000000)
              (module_world NoFile (Some {[ name := e ]}))).2 in
  glob_match name = true
  /\ older_than_an_hour 1700000000 (st_mtime e) = true
  /\ temp_dir w = Some {[ name := e ]}.
Proof. by vm_compute. Qed.

(** C9, amended. The sweep ends normally and removes exactly the files
    of the scratch directory whose name matches [speech_*.mp3], whose
    age exceeds 3600 seconds and whose deletion does not fail; every
    other file is in the directory as before. *)
Theorem cleanup_removes_stale_artifacts
    (env : Env) (w : World) (files : gmap string FileEntry) :
  temp_dir w = Some files ->
  exists w' files',
    cleanup_old_files env w = (inr tt, w')
    /\ temp_dir w' = Some files'
    /\ forall name,
         files' !! name =
         match files !! name with
         | Some e =>
             if glob_match name
                && older_than_an_hour (time_time env) (st_mtime e)
                && negb (in_use e)
             then None else Some e
         | None => None
         end.
Proof.
  intros Hd. unfold cleanup_old_files. unfold try_except at 1.
  erewrite bind_run by (unfold get; by rewrite Hd).
  edestruct (for_each_fold
               (fun file =>
                  try_except
                    (e ← stat file;
                     if older_than_an_hour (time_time env) (st_mtime e)
                     then unlink file else mret tt)
                    (fun _ => mret tt))
               (sweep_step (time_time env)) (glob files)) as (w' & Hrun & Hd');
    [|exact Hd|].
  - intros name w1 d Hd1. unfold sweep_step, deletable, stat, unlink. run.
    rewrite Hd1. simpl. destruct (d !! name) as [e|] eqn:Hn; simpl.
    + destruct (older_than_an_hour (time_time env) (st_mtime e)); simpl.
      * rewrite Hd1. simpl. rewrite Hn.
        destruct (in_use e); simpl; eexists; (split; [reflexivity|]); simpl;
          by rewrite ?Hd1.
      * by exists w1.
    + by exists w1.
  - exists w'. eexists. cbv beta iota zeta. rewrite Hrun.
    split; [done|]. split; [exact Hd'|].
    intros name. rewrite sweep_fold_lookup. unfold deletable.
    destruct (files !! name) as [e|] eqn:Hn; [|done].
    destruct (glob_match name) eqn:Hm.
    + rewrite bool_decide_true; [done|]. apply elem_of_glob. by rewrite Hn.
    + rewrite bool_decide_false; [done|]. rewrite elem_of_glob.
      intros [? _]. congruence.
Qed.

Lemma cleanup_removes_stale_artifacts_witness :
  let w := set_temp_dir (Some scratch_files) fresh_server in
  temp_dir w = Some scratch_files
  /\ exists files',
       temp_dir (cleanup_old_files (linux_host 1700000000) w).2 = Some files'
       /\ files' !! "speech_1699990000000.mp3" = None
       /\ files' !! "speech_1699996400000.mp3" = Some hour_old_entry
       /\ files' !! "speech_1699999990000.mp3" = Some fresh_entry
       /\ files' !! "notes.txt" = Some stale_entry.
Proof.
  intros w. split; [reflexivity|].
  destruct (cleanup_removes_stale_artifacts (linux_host 1700000000) w
              scratch_files eq_refl) as (w' & files' & Hrun & Hd' & Hlook).
  exists files'. rewrite Hrun. split; [exact Hd'|].
  rewrite !Hlook. clear. vm_compute. repeat split; reflexivity.
Defined.

(** ** Artifact names *)

Lemma string_length_app (a b : string) :
  String.length (a +:+ b) = (String.length a + String.length b)%nat.
Proof. induction a as [|c a IH]; simpl; [done | by rewrite IH]. Qed.

Lemma string_app_inv_tail (a b c : string) : a +:+ c = b +:+ c -> a = b.
Proof.
  revert b. induction a as [|x a IH]; intros [|y b] H; simpl in *.
  - done.
  - apply (f_equal String.length) in H.
    rewrite !string_length_app in H. simpl in H. lia.
  - apply (f_equal String.length) in H.
    rewrite !string_length_app in H. simpl in H. lia.
  - injection H as -> H. by rewrite (IH b H).
Qed.

(** Two timestamps name the same file only when they are equal: the
    name distinguishes calls as far as the millisecond count does. *)
Lemma speech_name_inj (t1 t2 : Z) : speech_name t1 = speech_name t2 -> t1 = t2.
Proof.
  unfold speech_name. intros H.
  apply (inj (String.app "speech_")) in H.
  apply string_app_inv_tail in H. by apply (inj pretty) in H.
Qed.

(** C4 fails on the code: two calls whose clock readings differ by
    less than a millisecond both succeed and are given the same file
    name; the second overwrites the artifact of the first. *)
Theorem same_millisecond_same_path :
  let t1 := 1700000000%float in
  let t2 := 1700000000.00048828125%float in
  let r1 := play_summary (linux_host t1) "first" None None fresh_server in
  let r2 := play_summary (linux_host t2) "second" None None r1.2 in
  (t1 <? t2)%float = true
  /\ r1.1 = inr (play_summary_ok "coral" "first")
  /\ r2.1 = inr (play_summary_ok "coral" "second")
  /\ tasks r2.2 = ["speech_1700000000000.mp3"; "speech_1700000000000.mp3"]
  /\ processes r2.2
     = [["mpg123"; "/tmp/summarize-mcp/speech_1700000000000.mp3"];
        ["mpg123"; "/tmp/summarize-mcp/speech_1700000000000.mp3"]]
  /\ (map_to_list (default ∅ (temp_dir r2.2))).*1
     = ["speech_1700000000000.mp3"].
Proof. vm_compute. repeat split; reflexivity. Qed.


(** * Further properties of the code *)

(** ** Players *)

Lemma probe_spec (env : Env) (l : list string) :
  match probe env l with
  | Some cmd =>
      exists before after,
        l = before ++ cmd :: after
        /\ found env cmd = true
        /\ Forall (fun x => found env x = false) before
  | None => Forall (fun x => found env x = false) l
  end.
Proof.
  induction l as [|x l IH]; simpl; [constructor|].
  assert (Hx : found env x = true /\ (exists path, which env x = Some path
                                      /\ Py.truthy path = true)
               \/ found env x = false
                  /\ match which env x with
                     | Some path =>
                         if Py.truthy path then Some x else probe env l
                     | None => probe env l
                     end = probe env l).
  { unfold found. destruct (which env x) as [path|]; [|by right].
    destruct (Py.truthy path) eqn:Ht; [left; eauto | by right]. }
  destruct Hx as [[Hx (path & -> & ->)]|[Hx ->]].
  - by exists [], l.
  - destruct (probe env l) as [cmd|].
    + destruct IH as (before & after & -> & Hc & Hall).
      exists (x :: before), after. repeat split; [done|]. by constructor.
    + by constructor.
Qed.

(** X1. [LinuxPlayer.check] answers true only on Linux, and then the
    command it binds is the first of mpg123, play, aplay, ffplay, cvlc
    that is on the path; when it answers false the object is as it was
    and either the platform is not Linux or none of the five is there. *)
Theorem linux_check_binds_first_found (env : Env) (c : option string) :
  match check env (LinuxPlayer c) with
  | (true, p') =>
      platform_system env = "Linux"
      /\ exists before cmd after,
           linux_players = before ++ cmd :: after
           /\ p' = LinuxPlayer (Some cmd)
           /\ found env cmd = true
           /\ Forall (fun x => found env x = false) before
  | (false, p') =>
      p' = LinuxPlayer c
      /\ (platform_system env <> "Linux"
          \/ Forall (fun x => found env x = false) linux_players)
  end.
Proof.
  unfold check. destruct (String.eqb_spec (platform_system env) "Linux")
    as [Hl|Hl]; cbn [negb].
  - pose proof (probe_spec env linux_players) as H.
    destruct (probe env linux_players) as [cmd|].
    + destruct H as (before & after & Hl' & Hc & Hall).
      split; [done|]. by exists before, cmd, after.
    + split; [done|]. by right.
  - split; [done|]. by left.
Qed.

(** X2. Which player the selector returns, by platform: afplay on
    Darwin when it is on the path, the PowerShell player on Windows, on
    Linux the player bound to the first executable found, and the
    fallback in every other case. *)
Theorem get_audio_player_by_platform (env : Env) :
  get_audio_player env =
  Some (if String.eqb (platform_system env) "Darwin"
        then match which env "afplay" with
             | Some _ => AfplayPlayer
             | None => FallbackPlayer
             end
        else if String.eqb (platform_system env) "Windows" then WindowsPlayer
        else if String.eqb (platform_system env) "Linux"
        then match probe env linux_players with
             | Some cmd => LinuxPlayer (Some cmd)
             | None => FallbackPlayer
             end
        else FallbackPlayer).
Proof.
  unfold get_audio_player, players, first_available, check.
  destruct (String.eqb_spec (platform_system env) "Darwin") as [HD|_];
    cbn [negb].
  - destruct (which env "afplay") as [path|]; [reflexivity|].
    rewrite HD. reflexivity.
  - destruct (String.eqb (platform_system env) "Windows"); [reflexivity|].
    destruct (String.eqb (platform_system env) "Linux"); cbn [negb];
      [|reflexivity].
    by destruct (probe env linux_players).
Qed.

Lemma selected_player_cases (env : Env) (p : AudioPlayer) :
  get_audio_player env = Some p ->
  p = AfplayPlayer \/ p = WindowsPlayer \/ p = FallbackPlayer
  \/ exists cmd, p = LinuxPlayer (Some cmd) /\ cmd ∈ linux_players.
Proof.
  unfold get_audio_player, players, first_available, check.
  destruct (String.eqb (platform_system env) "Darwin"); cbn [negb].
  - destruct (bool_decide (is_Some (which env "afplay"))).
    + intros [= <-]. auto.
    + destruct (String.eqb (platform_system env) "Windows");
        [intros [= <-]; auto|].
      destruct (String.eqb (platform_system env) "Linux"); cbn [negb];
        [|intros [= <-]; auto].
      pose proof (probe_spec env linux_players) as H.
      destruct (probe env linux_players) as [cmd|]; intros [= <-]; [|auto].
      destruct H as (before & after & Hl & _). do 3 right. exists cmd.
      split; [done|]. rewrite Hl. set_solver.
  - destruct (String.eqb (platform_system env) "Windows");
      [intros [= <-]; auto|].
    destruct (String.eqb (platform_system env) "Linux"); cbn [negb];
      [|intros [= <-]; auto].
    pose proof (probe_spec env linux_players) as H.
    destruct (probe env linux_players) as [cmd|]; intros [= <-]; [|auto].
    destruct H as (before & after & Hl & _). do 3 right. exists cmd.
    split; [done|]. rewrite Hl. set_solver.
Qed.

Lemma get_audio_player_is_some (env : Env) : is_Some (get_audio_player env).
Proof.
  unfold get_audio_player, players, first_available, check.
  repeat (case_match; simplify_eq/=; eauto).
Qed.

Lemma Popen_run (env : Env) (argv : list string) (w : World) :
  Popen env argv w =
  match popen env argv with
  | None => (inr tt, set_processes (processes w ++ [argv]) w)
  | Some e => (inl e, w)
  end.
Proof. unfold Popen. by destruct (popen env argv). Qed.

Lemma play_selected
    (env0 env : Env) (p : AudioPlayer) (file_path : string) (w : World) :
  get_audio_player env0 = Some p ->
  exists argv,
    (file_path ∈ argv
     \/ argv = ["powershell"; "-Command"; powershell_script file_path])
    /\ play env p file_path w =
       match popen env argv with
       | None => (inr tt, set_processes (processes w ++ [argv]) w)
       | Some e => (inl e, w)
       end.
Proof.
  intros Hp. apply selected_player_cases in Hp
    as [->|[->|[->|(cmd & -> & Hcmd)]]]; unfold play.
  - eexists. rewrite Popen_run. split; [|done]. left. set_solver.
  - eexists. rewrite Popen_run. split; [|done]. by right.
  - eexists. rewrite Popen_run. split; [|done]. left. set_solver.
  - unfold linux_players in Hcmd.
    rewrite !elem_of_cons, elem_of_nil in Hcmd.
    destruct Hcmd as [->|[->|[->|[->|[->|[]]]]]]; cbn;
      eexists; rewrite Popen_run; (split; [|done]); left; set_solver.
Qed.

(** X3. The player the selector returned can always be played: [play]
    starts exactly one process, whose command line carries the file
    path (inside the script, for PowerShell), or passes on what [Popen]
    raised and starts nothing; it never finds itself without a command. *)
Theorem selected_player_starts_one_process
    (env0 env : Env) (p : AudioPlayer) (file_path : string) (w : World) :
  get_audio_player env0 = Some p ->
  exists argv,
    (file_path ∈ argv
     \/ argv = ["powershell"; "-Command"; powershell_script file_path])
    /\ play env p file_path w =
       match popen env argv with
       | None => (inr tt, set_processes (processes w ++ [argv]) w)
       | Some e => (inl e, w)
       end.
Proof. apply play_selected. Qed.

Lemma selected_player_starts_one_process_witness :
  get_audio_player (linux_host 0) = Some (LinuxPlayer (Some "mpg123"))
  /\ exists argv,
       play (linux_host 1) (LinuxPlayer (Some "mpg123")) "/tmp/a.mp3"
         fresh_server
       = (inr tt, set_processes (processes fresh_server ++ [argv]) fresh_server).
Proof.
  assert (H : get_audio_player (linux_host 0)
              = Some (LinuxPlayer (Some "mpg123"))) by reflexivity.
  split; [exact H|].
  destruct (selected_player_starts_one_process (linux_host 0) (linux_host 1)
              _ "/tmp/a.mp3" fresh_server H) as (argv & _ & Hplay).
  exists argv. exact Hplay.
Defined.

(** ** The scratch directory *)

Lemma set_temp_dir_id (w : World) (d : option (gmap string FileEntry)) :
  temp_dir w = d -> set_temp_dir d w = w.
Proof. destruct w. simpl. by intros ->. Qed.

Lemma set_temp_dir_twice (w : World) (d d' : option (gmap string FileEntry)) :
  set_temp_dir d (set_temp_dir d' w) = set_temp_dir d w.
Proof. done. Qed.

(** One turn of the sweep's loop, and the loop, as functions of the
    directory alone. *)
Lemma sweep_file_run (now : float) (name : string) (w : World)
    (d : gmap string FileEntry) :
  temp_dir w = Some d ->
  try_except
    (e ← stat name;
     if older_than_an_hour now (st_mtime e) then unlink name else mret tt)
    (fun _ => mret tt) w
  = (inr tt, set_temp_dir (Some (sweep_step now d name)) w).
Proof.
  intros Hd. unfold sweep_step, deletable, stat, unlink. run.
  rewrite Hd. simpl. destruct (d !! name) as [e|] eqn:Hn; simpl.
  - destruct (older_than_an_hour now (st_mtime e)); simpl.
    + rewrite Hd. simpl. rewrite Hn.
      destruct (in_use e); simpl; [by rewrite set_temp_dir_id|].
      by rewrite Hd.
    + by rewrite set_temp_dir_id.
  - by rewrite set_temp_dir_id.
Qed.

Lemma sweep_loop_run (now : float) (l : list string) :
  forall (w : World) (d : gmap string FileEntry),
    temp_dir w = Some d ->
    for_each l (fun file =>
      try_except
        (e ← stat file;
         if older_than_an_hour now (st_mtime e) then unlink file else mret tt)
        (fun _ => mret tt)) w
    = (inr tt, set_temp_dir (Some (foldl (sweep_step now) d l)) w).
Proof.
  induction l as [|x l IH]; intros w d Hd; simpl.
  - unfold mret, M_ret. by rewrite set_temp_dir_id.
  - erewrite bind_run by (by apply sweep_file_run).
    by rewrite (IH _ (sweep_step now d x)).
Qed.

Lemma cleanup_old_files_run (env : Env) (w : World) :
  cleanup_old_files env w =
  (inr tt,
   match temp_dir w with
   | Some d =>
       set_temp_dir
         (Some (foldl (sweep_step (time_time env)) d (glob d))) w
   | None => w
   end).
Proof.
  unfold cleanup_old_files. unfold try_except at 1.
  destruct (temp_dir w) as [d|] eqn:Hd.
  - erewrite bind_run by (unfold get; by rewrite Hd).
    cbv beta iota zeta. by rewrite (sweep_loop_run _ _ w d Hd).
  - erewrite bind_run by (unfold get; by rewrite Hd). done.
Qed.

(** What is in the directory after a sweep at [now]. *)
Lemma swept_lookup (now : float) (d : gmap string FileEntry) (k : string) :
  foldl (sweep_step now) d (glob d) !! k =
  match d !! k with
  | Some e => if glob_match k && deletable now e then None else Some e
  | None => None
  end.
Proof.
  rewrite sweep_fold_lookup. destruct (d !! k) as [e|] eqn:Hk; [|done].
  destruct (glob_match k) eqn:Hm.
  - rewrite bool_decide_true; [done|]. apply elem_of_glob. by rewrite Hk.
  - rewrite bool_decide_false; [done|]. rewrite elem_of_glob.
    intros [? _]. congruence.
Qed.

(** X5. The sweep never raises and touches nothing but the scratch
    directory: the world after it is the world before with that
    directory replaced, and without a directory nothing changes.  In
    particular the preference record and the state file are as before. *)
Theorem cleanup_old_files_only_touches_scratch (env : Env) (w : World) :
  exists w',
    cleanup_old_files env w = (inr tt, w')
    /\ w' = set_temp_dir (temp_dir w') w
    /\ (temp_dir w = None -> w' = w)
    /\ current_state w' = current_state w
    /\ state_file w' = state_file w.
Proof.
  rewrite cleanup_old_files_run. eexists. split; [reflexivity|].
  destruct (temp_dir w) as [d|] eqn:Hd; simpl.
  - repeat split; try done.
  - rewrite Hd. by rewrite set_temp_dir_id.
Qed.

(** X6. Sweeping again at the same clock reading finds nothing left to
    remove: the second sweep leaves the world of the first. *)
Theorem cleanup_old_files_idempotent (env : Env) (w : World) :
  cleanup_old_files env (cleanup_old_files env w).2
  = (inr tt, (cleanup_old_files env w).2).
Proof.
  rewrite !cleanup_old_files_run. simpl.
  destruct (temp_dir w) as [d|] eqn:Hd; simpl; [|by rewrite Hd].
  f_equal. rewrite set_temp_dir_twice. f_equal. f_equal.
  apply map_eq. intros k. rewrite !swept_lookup.
  destruct (d !! k) as [e|]; [|done].
  destruct (glob_match k && deletable (time_time env) e) eqn:Hs; [done|].
  by rewrite Hs.
Qed.

(** ** Startup *)

Lemma load_state_returns (w : World) :
  exists s, load_state w = (inr tt, set_current_state s w).
Proof.
  unfold load_state. run. destruct w as [st c p f d rq pr tk]. simpl.
  destruct f as [|e|[data|]]; simpl; try (by eexists).
  destruct (UserState.new data); by eexists.
Qed.

Lemma ensure_temp_dir_run (env : Env) (w : World) :
  ensure_temp_dir env w =
  match mkdir env with
  | None => (inr tt, set_temp_dir (Some (default ∅ (temp_dir w))) w)
  | Some _ =>
      (inl (TTSError "Failed to create temporary directory" "TEMP_DIR_ERROR"),
       w)
  end.
Proof. unfold ensure_temp_dir. by destruct (mkdir env); run. Qed.

Lemma initialize_server_run (env : Env) (w : World) :
  initialize_server env w =
  if api_key_set env then
    match client_error env with
    | Some e => (inl e, w)
    | None =>
        let w1 := set_audio_player (get_audio_player env)
                    (set_openai_client (getenv_OPENAI_API_KEY env) w) in
        match mkdir env with
        | Some _ =>
            (inl (TTSError "Failed to create temporary directory"
                    "TEMP_DIR_ERROR"),
             w1)
        | None =>
            load_state
              (cleanup_old_files env
                 (set_temp_dir (Some (default ∅ (temp_dir w))) w1)).2
        end
    end
  else (inl key_required, w).
Proof.
  unfold initialize_server, api_key_set, client_error.
  destruct (getenv_OPENAI_API_KEY env) as [k|]; [|done].
  destruct (Py.truthy k); cbn [negb]; [|done].
  destruct (new_client env k) as [e|]; [done|].
  destruct (get_audio_player_is_some env) as [p Hp].
  unfold mbind, M_bind, modify. rewrite Hp. cbv zeta.
  rewrite ensure_temp_dir_run. destruct (mkdir env); [done|].
  by rewrite !cleanup_old_files_run.
Qed.

(** X7. Startup succeeds exactly when the API key is set and not
    empty, the client can be constructed with it, and the scratch
    directory can be created: on no host does it fail for want of an
    audio player, and neither the sweep nor a bad state file makes it
    fail. *)
Theorem initialize_server_succeeds_iff (env : Env) (w : World) :
  (initialize_server env w).1 = inr tt
  <-> api_key_set env = true /\ client_error env = None /\ mkdir env = None.
Proof.
  rewrite initialize_server_run.
  destruct (api_key_set env); [|by split; [|intros []]].
  destruct (client_error env) as [e|]; [by split; [|intros (_ & ? & _)]|].
  cbv zeta. destruct (mkdir env) as [e|]; [by split; [|intros (_ & _ & ?)]|].
  match goal with |- context [load_state ?w0] =>
    destruct (load_state_returns w0) as [s ->]
  end.
  done.
Qed.

(** X8. What startup leaves behind.  When it returns, the client holds
    the key, the player is the selector's choice, the scratch directory
    exists, and nothing was sent, started or scheduled.  When it raises
    for want of a key, or because the client could not be constructed
    (then with the constructor's own exception), the world is untouched;
    when it raises with [TEMP_DIR_ERROR], the scratch directory and the
    preferences are as they were. *)
Theorem initialize_server_outcome (env : Env) (w : World) :
  match initialize_server env w with
  | (inr _, w') =>
      openai_client w' = getenv_OPENAI_API_KEY env
      /\ audio_player w' = get_audio_player env
      /\ is_Some (temp_dir w')
      /\ state_file w' = state_file w
      /\ speech_requests w' = speech_requests w
      /\ processes w' = processes w
      /\ tasks w' = tasks w
  | (inl e, w') =>
      (api_key_set env = false /\ e = key_required /\ w' = w)
      \/ (api_key_set env = true /\ client_error env = Some e /\ w' = w)
      \/ (api_key_set env = true /\ client_error env = None
          /\ mkdir env <> None
          /\ e = TTSError "Failed to create temporary directory"
                 "TEMP_DIR_ERROR"
          /\ temp_dir w' = temp_dir w
          /\ current_state w' = current_state w)
  end.
Proof.
  rewrite initialize_server_run.
  destruct (api_key_set env); [|by left].
  destruct (client_error env) as [e|]; [by right; left|].
  cbv zeta. destruct (mkdir env) as [e|]; [by right; right|].
  match goal with |- context [load_state ?w0] =>
    destruct (load_state_returns w0) as [s ->]
  end.
  rewrite cleanup_old_files_run. simpl. done.
Qed.

(** ** The preference store *)

Lemma save_state_run (env : Env) (w : World) :
  save_state env w =
  (inr tt,
   match write_state env with
   | Written =>
       set_state_file
         (Contents (Some (UserState.model_dump (current_state w)))) w
   | OpenRaises _ => w
   | DumpRaises _ => set_state_file (Contents None) w
   end).
Proof. unfold save_state. by destruct (write_state env); run. Qed.



(** X10. [save_state] never raises and never changes the record in
    memory.  When [open] raises, the file is as before; when the write
    raises after [open] truncated the file, what was stored is lost: a
    fresh process starts from the defaults. *)
Theorem save_state_failure_modes (env : Env) (w : World) :
  (save_state env w).1 = inr tt
  /\ current_state (save_state env w).2 = current_state w
  /\ match write_state env with
     | Written =>
         state_file (save_state env w).2
         = Contents (Some (UserState.model_dump (current_state w)))
     | OpenRaises _ => (save_state env w).2 = w
     | DumpRaises _ =>
         state_file (save_state env w).2 = Contents None
         /\ current_state (fresh_process_load (save_state env w).2)
            = UserState.default
     end.
Proof. rewrite save_state_run. by destruct (write_state env). Qed.

(** X11. One field of the wrong type spoils the whole file: when the
    voice or the tone of the state file is there but is not a string,
    [load_state] takes the defaults for both fields, also for the one
    that was fine. *)
Theorem load_state_wrong_type_resets_both
    (members : list (string * json)) (v : json) (w : World) :
  state_file w = Contents (Some (JObject members)) ->
  dict_get "voice" members = Some v \/ dict_get "tone" members = Some v ->
  (forall s, v <> JString s) ->
  load_state w = (inr tt, set_current_state UserState.default w).
Proof.
  intros Hf Hv Hs. unfold load_state, UserState.new, UserState.field. run.
  rewrite Hf. destruct Hv as [Hv|Hv]; rewrite Hv.
  - destruct v; try (by repeat (case_match; run; simplify_eq/=)).
    by destruct (Hs s).
  - destruct v; try (by repeat (case_match; run; simplify_eq/=)).
    by destruct (Hs s).
Qed.

Lemma load_state_wrong_type_resets_both_witness :
  current_state
    (load_state (module_world numeric_tone_file None)).2 = UserState.default.
Proof.
  rewrite (load_state_wrong_type_resets_both
             [("voice", JString "nova"); ("tone", JInt 3)] (JInt 3)
             (module_world numeric_tone_file None) eq_refl
             (or_intror eq_refl)); [reflexivity|].
  intros s. discriminate.
Defined.

(** X12. A field the state file does not mention takes its default on
    its own: with a string tone and no voice, the loaded record has the
    default voice and that tone. *)
Theorem load_state_completes_missing_voice
    (members : list (string * json)) (t_ : string) (w : World) :
  state_file w = Contents (Some (JObject members)) ->
  dict_get "voice" members = None ->
  dict_get "tone" members = Some (JString t_) ->
  load_state w =
  (inr tt,
   set_current_state
     {| UserState.voice := default_voice; UserState.tone := t_ |} w).
Proof.
  intros Hf Hv Ht. unfold load_state, UserState.new, UserState.field. run.
  by rewrite Hf, Hv, Ht.
Qed.

Lemma load_state_completes_missing_voice_witness :
  current_state
    (load_state
       (module_world
          (Contents (Some (JObject [("tone", JString "Speak slowly")])))
          None)).2
  = {| UserState.voice := "coral"; UserState.tone := "Speak slowly" |}.
Proof.
  by rewrite (load_state_completes_missing_voice
                [("tone", JString "Speak slowly")] "Speak slowly"
                (module_world
                   (Contents
                      (Some (JObject [("tone", JString "Speak slowly")])))
                   None)
                eq_refl eq_refl eq_refl).
Defined.

(** X13. Without a usable file: when there is no state file the world
    is left alone, the record in memory included; when the file cannot
    be read, is not JSON, or is JSON but not an object, the record is
    reset to the defaults and nothing is raised. *)
Theorem load_state_without_usable_file (w : World) :
  match state_file w with
  | NoFile => load_state w = (inr tt, w)
  | Unreadable _ | Contents None =>
      load_state w = (inr tt, set_current_state UserState.default w)
  | Contents (Some data) =>
      (forall members, data <> JObject members) ->
      load_state w = (inr tt, set_current_state UserState.default w)
  end.
Proof.
  unfold load_state. run.
  destruct (state_file w) as [|e|[data|]]; try done.
  intros Hno. destruct data; try done. by destruct (Hno members).
Qed.

(** ** The handlers *)

Lemma play_cases (env : Env) (p : AudioPlayer) (file_path : string)
    (w : World) :
  (exists e, play env p file_path w = (inl e, w))
  \/ (exists argv,
        play env p file_path w
        = (inr tt, set_processes (processes w ++ [argv]) w)).
Proof.
  destruct p as [| |[c|]|]; unfold play; try rewrite Popen_run.
  - destruct (popen env _); eauto.
  - destruct (popen env _); eauto.
  - destruct (negb (Py.truthy c)); [left; by eexists|].
    rewrite Popen_run. destruct (popen env _); eauto.
  - left. by eexists.
  - destruct (popen env _); eauto.
Qed.

(** The [try] block of [play_summary] past validation, step by step. *)
Lemma play_summary_try_run (env : Env) (summary : string)
    (voice instructions : option string) (w : World) :
  (1 <= Py.len summary)%nat ->
  (forall v, voice = Some v -> v ∈ VALID_VOICES) ->
  play_summary_try env summary voice instructions w =
  let req := effective_request summary voice instructions (current_state w) in
  match Py.int (time_time env * 1000)%float with
  | None => (inl (Exception "cannot convert float to integer"), w)
  | Some z =>
    match openai_client w with
    | None =>
        (inl (Exception "'NoneType' object has no attribute 'audio'"), w)
    | Some _ =>
      let w1 := set_speech_requests (speech_requests w ++ [req]) w in
      match speech_create env req with
      | Some e => (inl e, w1)
      | None =>
        match stream_to_file env (temp_path env (speech_name z)) with
        | Some e => (inl e, w1)
        | None =>
          match temp_dir w with
          | None => (inl (Exception "No such file or directory"), w1)
          | Some files =>
            let w2 :=
              set_temp_dir
                (Some (<[speech_name z :=
                           {| st_mtime := time_time env; in_use := false |}]>
                         files)) w1 in
            match audio_player w with
            | None =>
                (inl (Exception "'NoneType' object has no attribute 'play'"),
                 w2)
            | Some p =>
              match play env p (temp_path env (speech_name z)) w2 with
              | (inl e, w3) => (inl e, w3)
              | (inr _, w3) =>
                  (inr (play_summary_ok (req_voice req) summary),
                   set_tasks (tasks w3 ++ [speech_name z]) w3)
              end
            end
          end
        end
      end
    end
  end.
Proof.
  intros Hlen Hv. unfold play_summary_try.
  rewrite args_accepted by done.
  unfold timestamp_ms, audio_speech_create, response_stream_to_file,
    effective_request.
  run. by repeat (case_match; run; simplify_eq/=).
Qed.

#[global] Instance same_module_preorder : PreOrder same_module.
Proof.
  split.
  - by intros w.
  - intros w1 w2 w3 (?&?&?&?) (?&?&?&?). repeat split; congruence.
Qed.

Lemma play_keeps_module (env : Env) (p : AudioPlayer) (file_path : string) :
  keeps same_module (play env p file_path).
Proof. destruct p; unfold play, Popen; frame. Qed.

(** X14. [play_summary] is read-only on the server's settings: for
    all arguments, valid or not, and whatever the host does, the
    preference record, the state file, the client and the player are
    after the call what they were before it. *)
Theorem play_summary_changes_no_setting (env : Env) (summary : string)
    (voice instructions : option string) (w : World) :
  let w' := (play_summary env summary voice instructions w).2 in
  current_state w' = current_state w
  /\ state_file w' = state_file w
  /\ openai_client w' = openai_client w
  /\ audio_player w' = audio_player w.
Proof.
  assert (H : keeps same_module
                (play_summary env summary voice instructions)).
  { unfold play_summary, play_summary_try, play_summary_except, timestamp_ms,
      audio_speech_create, response_stream_to_file.
    frame; apply play_keeps_module. }
  exact (H w).
Qed.



(** X16. A tone of length zero is turned down before anything
    happens: [set_tone] answers with the validation failure naming the
    [tone] field, and the record, the state file and the rest of the
    world are untouched; no write is attempted. *)
Theorem set_tone_empty_rejected (env : Env) (tone : string) (w : World) :
  Py.len tone = 0%nat ->
  set_tone env tone w =
  (inr (invalid_arguments [{| loc := ["tone"]; msg := string_too_short |}]),
   w).
Proof.
  intros H. unfold set_tone, set_tone_try, SetToneArgs.new. by rewrite H.
Qed.

Lemma set_tone_empty_rejected_witness :
  Py.len "" = 0%nat
  /\ (set_tone (read_only_host 1700000001) "" fresh_server).2 = fresh_server.
Proof.
  split; [reflexivity|].
  by rewrite (set_tone_empty_rejected (read_only_host 1700000001) ""
                fresh_server eq_refl).
Defined.

Lemma set_tone_valid_run (env : Env) (T : string) (w : World) :
  (1 <= Py.len T)%nat ->
  set_tone env T w =
  (inr (set_tone_ok T),
   (save_state env
      (set_current_state
         {| UserState.voice := UserState.voice (current_state w);
            UserState.tone := T |} w)).2).
Proof.
  intros HT. unfold set_tone, set_tone_try, SetToneArgs.new.
  destruct (Nat.leb_spec 1 (Py.len T)); [|lia].
  unfold mbind, M_bind, lift, modify, model_result, try_except.
  rewrite !save_state_run. reflexivity.
Qed.

Lemma set_voice_valid_run (env : Env) (V : string) (w : World) :
  V ∈ VALID_VOICES ->
  set_voice env V w =
  (inr (set_voice_ok V),
   (save_state env
      (set_current_state
         {| UserState.voice := V;
            UserState.tone := UserState.tone (current_state w) |} w)).2).
Proof.
  intros HV. unfold set_voice, set_voice_try, SetVoiceArgs.new,
    SetVoiceArgs.validate_voice.
  rewrite bool_decide_true by done.
  unfold mbind, M_bind, lift, modify, model_result, try_except.
  rewrite !save_state_run. reflexivity.
Qed.

(** X17. Voice and tone are set independently of each other: for a
    valid voice and a non-empty tone, setting one and then the other
    gives the record with both, in either order; and when the state
    file takes both writes, the two orders end in the same world. *)
Theorem set_voice_set_tone_commute
    (env_v env_t : Env) (V T : string) (w : World) :
  V ∈ VALID_VOICES ->
  (1 <= Py.len T)%nat ->
  let voice_first := (set_tone env_t T (set_voice env_v V w).2).2 in
  let tone_first := (set_voice env_v V (set_tone env_t T w).2).2 in
  current_state voice_first = {| UserState.voice := V; UserState.tone := T |}
  /\ current_state tone_first = {| UserState.voice := V; UserState.tone := T |}
  /\ (write_state env_v = Written -> write_state env_t = Written ->
      voice_first = tone_first).
Proof.
  intros HV HT voice_first tone_first. subst voice_first tone_first.
  rewrite !set_voice_valid_run, !set_tone_valid_run by done.
  rewrite !save_state_run. simpl.
  split; [|split].
  - by destruct (write_state env_t), (write_state env_v).
  - by destruct (write_state env_t), (write_state env_v).
  - by intros -> ->.
Qed.

Lemma set_voice_set_tone_commute_witness :
  ("nova" ∈ VALID_VOICES)
  /\ (1 <= Py.len "Speak slowly")%nat
  /\ current_state
       (set_tone (linux_host 2) "Speak slowly"
          (set_voice (linux_host 1) "nova" fresh_server).2).2
     = {| UserState.voice := "nova"; UserState.tone := "Speak slowly" |}.
Proof.
  assert (HV : "nova" ∈ VALID_VOICES) by compute_done.
  assert (HT : (1 <= Py.len "Speak slowly")%nat) by (vm_compute; lia).
  split; [exact HV|]. split; [exact HT|].
  exact (proj1 (set_voice_set_tone_commute (linux_host 1) (linux_host 2)
                  "nova" "Speak slowly" fresh_server HV HT)).
Defined.

Lemma play_fails_when_popen_raises (env : Env) (p : AudioPlayer)
    (file_path : string) (w : World) :
  (forall argv, popen env argv <> None) ->
  exists e, play env p file_path w = (inl e, w).
Proof.
  intros Hpopen. destruct (play_cases env p file_path w) as [H|[argv H]];
    [done|].
  exfalso. destruct p as [| |[c|]|]; unfold play in H;
    try rewrite Popen_run in H.
  - by destruct (popen env _) eqn:Hq; [|apply Hpopen in Hq].
  - by destruct (popen env _) eqn:Hq; [|apply Hpopen in Hq].
  - destruct (negb (Py.truthy c)); [done|]. rewrite Popen_run in H.
    by destruct (popen env _) eqn:Hq; [|apply Hpopen in Hq].
  - done.
  - by destruct (popen env _) eqn:Hq; [|apply Hpopen in Hq].
Qed.

(** X18. A call on which nothing goes wrong: with accepted arguments,
    a client, a clock reading of millisecond [z], a provider and a disk
    that do not raise, an existing scratch directory and the player
    chosen at startup, [play_summary] answers with the success message
    and has sent one request, written the artifact [speech_z.mp3],
    started one process on that file and scheduled the deletion of
    that same file. *)
Theorem play_summary_success (env0 env : Env) (summary : string)
    (voice instructions : option string) (w : World)
    (z : Z) (files : gmap string FileEntry) :
  (1 <= Py.len summary)%nat ->
  (forall v, voice = Some v -> v ∈ VALID_VOICES) ->
  Py.int (time_time env * 1000)%float = Some z ->
  openai_client w <> None ->
  (forall req, speech_create env req = None) ->
  (forall path, stream_to_file env path = None) ->
  (forall argv, popen env argv = None) ->
  temp_dir w = Some files ->
  audio_player w = get_audio_player env0 ->
  let r := play_summary env summary voice instructions w in
  let req := effective_request summary voice instructions (current_state w) in
  r.1 = inr (play_summary_ok (req_voice req) summary)
  /\ speech_requests r.2 = speech_requests w ++ [req]
  /\ temp_dir r.2
     = Some (<[speech_name z :=
                 {| st_mtime := time_time env; in_use := false |}]> files)
  /\ (exists argv,
        processes r.2 = processes w ++ [argv]
        /\ (temp_path env (speech_name z) ∈ argv
            \/ argv = ["powershell"; "-Command";
                       powershell_script (temp_path env (speech_name z))]))
  /\ tasks r.2 = tasks w ++ [speech_name z].
Proof.
  intros Hlen Hv Hz Hc Hprov Hstream Hpopen Hd Hp r req. subst r.
  destruct (get_audio_player_is_some env0) as [p Hsel].
  rewrite play_summary_unfold, play_summary_try_run by done.
  cbv zeta. rewrite Hz. destruct (openai_client w) as [k|]; [|done].
  rewrite Hprov, Hstream, Hd, Hp, Hsel.
  match goal with |- context [play env p ?f ?w0] =>
    destruct (play_selected env0 env p f w0 Hsel) as (argv & Hargv & ->)
  end.
  rewrite Hpopen. simpl.
  repeat split; try done.
  by exists argv.
Qed.

Lemma play_summary_success_witness :
  Py.int (time_time (linux_host 1700000000.5) * 1000)%float
  = Some 1700000000500%Z
  /\ temp_dir fresh_server = Some ∅
  /\ (play_summary (linux_host 1700000000.5) "hello" None None fresh_server).1
     = inr (play_summary_ok "coral" "hello")
  /\ tasks
       (play_summary (linux_host 1700000000.5) "hello" None None
          fresh_server).2
     = ["speech_1700000000500.mp3"].
Proof.
  assert (Hz : Py.int (time_time (linux_host 1700000000.5) * 1000)%float
               = Some 1700000000500%Z) by (by vm_compute).
  assert (Hd : temp_dir fresh_server = Some ∅) by (by vm_compute).
  assert (Hlen : (1 <= Py.len "hello")%nat) by (vm_compute; lia).
  destruct (play_summary_success (linux_host 1700000000)
              (linux_host 1700000000.5) "hello" None None fresh_server
              1700000000500 ∅ Hlen ltac:(discriminate) Hz ltac:(discriminate)
              ltac:(reflexivity) ltac:(reflexivity) ltac:(reflexivity)
              Hd ltac:(reflexivity))
    as (Hr & _ & _ & _ & Ht).
  split; [exact Hz|]. split; [exact Hd|]. split; [exact Hr|exact Ht].
Defined.

Lemma args_rejected (summary : string) (voice instructions : option string) :
  ~ ((1 <= Py.len summary)%nat /\ forall v, voice = Some v -> v ∈ VALID_VOICES) ->
  exists errors,
    PlaySummaryArgs.new summary voice instructions
    = inl (ValidationError errors).
Proof.
  intros Hno. unfold PlaySummaryArgs.new, PlaySummaryArgs.validate_voice.
  destruct (Nat.leb_spec 1 (Py.len summary)) as [Hlen|Hlen];
    [|by eexists].
  destruct voice as [v|].
  - case_bool_decide as Hv; [|by eexists].
    destruct Hno. split; [done|]. by intros ? [= <-].
  - destruct Hno. split; [done|]. by intros ? [=].
Qed.

(** X19. A deletion is scheduled, and a player started, exactly when
    the call reports success, and then for the artifact that call
    wrote: for all arguments and hosts, either the answer begins with
    the success marker, the scratch directory holds [speech_z.mp3] for
    the millisecond [z] of the call, one process was started and that
    file name was added to the scheduled deletions; or the answer does
    not begin with it and no process and no deletion was added. *)
Theorem deletion_scheduled_iff_success (env : Env) (summary : string)
    (voice instructions : option string) (w : World) :
  let r := play_summary env summary voice instructions w in
  exists s,
    r.1 = inr s
    /\ if Py.startswith ok_mark s
       then exists z files argv,
              Py.int (time_time env * 1000)%float = Some z
              /\ temp_dir r.2 = Some files
              /\ is_Some (files !! speech_name z)
              /\ processes r.2 = processes w ++ [argv]
              /\ tasks r.2 = tasks w ++ [speech_name z]
       else processes r.2 = processes w /\ tasks r.2 = tasks w.
Proof.
  intros r. subst r. rewrite play_summary_unfold.
  assert (Hdec : ((1 <= Py.len summary)%nat
                  /\ forall v, voice = Some v -> v ∈ VALID_VOICES)
                 \/ ~ ((1 <= Py.len summary)%nat
                       /\ forall v, voice = Some v -> v ∈ VALID_VOICES)).
  { destruct (Nat.le_gt_cases 1 (Py.len summary)) as [Hlen|Hlen];
      [|right; intros [? _]; lia].
    destruct voice as [v|]; [|left; split; [done|by intros ? [=]]].
    destruct (decide (v ∈ VALID_VOICES)) as [Hv|Hv].
    - left. split; [done|]. by intros ? [= <-].
    - right. intros [_ H]. by apply Hv, H. }
  destruct Hdec as [[Hlen Hv]|Hno].
  - rewrite play_summary_try_run by done. cbv zeta.
    repeat (case_match; simplify_eq/=);
      try (match goal with
           | H : play ?env ?p ?f ?w0 = _ |- _ =>
               destruct (play_cases env p f w0) as [[e' Hp]|[argv Hp]];
               rewrite Hp in H; simplify_eq/=
           end);
      (eexists; split; [reflexivity|]);
      first
        [ unfold invalid_arguments; rewrite fail_mark_not_ok; done
        | unfold play_summary_ok; rewrite startswith_app;
          eexists _, _, _; repeat split; try done;
          by rewrite lookup_insert_eq ].
  - destruct (args_rejected summary voice instructions Hno) as [errors He].
    unfold play_summary_try. rewrite He. simpl.
    eexists. split; [done|]. unfold invalid_arguments.
    by rewrite fail_mark_not_ok.
Qed.

(** X20. When the player cannot be started, the artifact stays: with
    accepted arguments, a provider and a disk that do not raise and a
    [Popen] that raises, [play_summary] answers with a failure, the
    artifact it wrote is in the scratch directory, and no deletion of
    it is scheduled; it is left for a later startup sweep. *)
Theorem player_failure_leaves_artifact (env : Env) (summary : string)
    (voice instructions : option string) (w : World)
    (z : Z) (files : gmap string FileEntry) :
  (1 <= Py.len summary)%nat ->
  (forall v, voice = Some v -> v ∈ VALID_VOICES) ->
  Py.int (time_time env * 1000)%float = Some z ->
  openai_client w <> None ->
  (forall req, speech_create env req = None) ->
  (forall path, stream_to_file env path = None) ->
  (forall argv, popen env argv <> None) ->
  temp_dir w = Some files ->
  let r := play_summary env summary voice instructions w in
  (exists s, r.1 = inr s /\ Py.startswith fail_mark s = true)
  /\ temp_dir r.2
     = Some (<[speech_name z :=
                 {| st_mtime := time_time env; in_use := false |}]> files)
  /\ processes r.2 = processes w
  /\ tasks r.2 = tasks w.
Proof.
  intros Hlen Hv Hz Hc Hprov Hstream Hpopen Hd r. subst r.
  rewrite play_summary_unfold, play_summary_try_run by done.
  cbv zeta. rewrite Hz. destruct (openai_client w) as [k|]; [|done].
  rewrite Hprov, Hstream, Hd.
  destruct (audio_player w) as [p|].
  - match goal with |- context [play env p ?f ?w0] =>
      destruct (play_fails_when_popen_raises env p f w0 Hpopen) as [e ->]
    end.
    destruct (play_summary_except_fails e
                (set_temp_dir
                   (Some (<[speech_name z :=
                              {| st_mtime := time_time env;
                                 in_use := false |}]> files))
                   (set_speech_requests
                      (speech_requests w
                       ++ [effective_request summary voice instructions
                             (current_state w)]) w)))
      as (s & Hs & Hfail & _).
    rewrite Hs. simpl. split; [by exists s|done].
  - simpl. split; [|done]. eexists. split; [done|]. apply startswith_app.
Qed.

Lemma player_failure_leaves_artifact_witness :
  temp_dir fresh_server = Some ∅
  /\ (map_to_list
        (default ∅
           (temp_dir
              (play_summary (no_player_host 1700000000.5) "hello" None None
                 fresh_server).2))).*1
     = ["speech_1700000000500.mp3"]
  /\ tasks
       (play_summary (no_player_host 1700000000.5) "hello" None None
          fresh_server).2
     = [].
Proof.
  assert (Hz : Py.int (time_time (no_player_host 1700000000.5) * 1000)%float
               = Some 1700000000500%Z) by (by vm_compute).
  assert (Hd : temp_dir fresh_server = Some ∅) by (by vm_compute).
  assert (Hlen : (1 <= Py.len "hello")%nat) by (vm_compute; lia).
  destruct (player_failure_leaves_artifact (no_player_host 1700000000.5)
              "hello" None None fresh_server 1700000000500 ∅ Hlen
              ltac:(discriminate) Hz ltac:(discriminate)
              ltac:(reflexivity) ltac:(reflexivity) ltac:(discriminate) Hd)
    as (_ & Hdir & _ & Ht).
  split; [exact Hd|]. split; [|exact Ht].
  rewrite Hdir. clear. by vm_compute.
Defined.

(** X21. When the provider raises, the call has sent its request and
    done nothing else: no artifact is written, no process started, no
    deletion scheduled, and the answer is the failure string made from
    that exception (its code and message for a [TTSError], its
    [errors()] for a validation error, its text otherwise). *)
Theorem provider_failure_writes_nothing (env : Env) (summary : string)
    (voice instructions : option string) (w : World) (z : Z) (e : Exc) :
  (1 <= Py.len summary)%nat ->
  (forall v, voice = Some v -> v ∈ VALID_VOICES) ->
  Py.int (time_time env * 1000)%float = Some z ->
  openai_client w <> None ->
  speech_create env
    (effective_request summary voice instructions (current_state w)) = Some e ->
  play_summary env summary voice instructions w =
  ((play_summary_except e w).1,
   set_speech_requests
     (speech_requests w
      ++ [effective_request summary voice instructions (current_state w)]) w).
Proof.
  intros Hlen Hv Hz Hc He.
  rewrite play_summary_unfold, play_summary_try_run by done.
  cbv zeta. rewrite Hz. destruct (openai_client w) as [k|]; [|done].
  by rewrite He.
Qed.

Lemma provider_failure_writes_nothing_witness :
  play_summary (unreachable_provider_host 1700000000.5) "hello" None None
    fresh_server
  = (inr (fail_mark +:+ " Error playing summary: Connection error."),
     set_speech_requests
       [effective_request "hello" None None (current_state fresh_server)]
       fresh_server).
Proof.
  assert (Hz : Py.int (time_time (unreachable_provider_host 1700000000.5)
                       * 1000)%float
               = Some 1700000000500%Z) by (by vm_compute).
  assert (Hlen : (1 <= Py.len "hello")%nat) by (vm_compute; lia).
  rewrite (provider_failure_writes_nothing
             (unreachable_provider_host 1700000000.5) "hello" None None
             fresh_server 1700000000500 (Exception "Connection error.")
             Hlen ltac:(discriminate) Hz ltac:(discriminate)
             ltac:(reflexivity)).
  reflexivity.
Defined.

(** ** Artifact names and the deferred deletion *)

Lemma substring_app_skip (s p : string) (n : nat) :
  String.substring (String.length s) n (s +:+ p) = String.substring 0 n p.
Proof. induction s as [|c s IH]; simpl; [done | exact IH]. Qed.

Lemma substring_all (p : string) :
  String.substring 0 (String.length p) p = p.
Proof. induction p as [|c p IH]; simpl; [done | by rewrite IH]. Qed.

Lemma string_app_assoc (a b c : string) : a +:+ (b +:+ c) = (a +:+ b) +:+ c.
Proof.
  induction a as [|x a IH]; [reflexivity | exact (f_equal (String x) IH)].
Qed.

Lemma endswith_app (s p : string) : Py.endswith p (s +:+ p) = true.
Proof.
  unfold Py.endswith. rewrite string_length_app.
  replace (String.length s + String.length p - String.length p)%nat
    with (String.length s) by lia.
  rewrite substring_app_skip, substring_all, String.eqb_refl. simpl.
  apply Nat.leb_le. lia.
Qed.

(** X22. Every artifact [play_summary] names is one the startup sweep
    looks at: for every timestamp, [speech_<timestamp>.mp3] matches the
    pattern [speech_*.mp3]. *)
Theorem artifact_names_match_sweep_pattern (timestamp : Z) :
  glob_match (speech_name timestamp) = true.
Proof.
  unfold glob_match, speech_name.
  rewrite startswith_app, string_app_assoc, endswith_app.
  rewrite !string_length_app. cbn [andb]. apply Nat.leb_le.
  cbn [String.length]. lia.
Qed.

Example temp_path_on_posix (env : Env) (name : string) :
  platform_system env = "Linux" ->
  (gettempdir env = "/tmp" ->
   temp_path env name = "/tmp/summarize-mcp/" +:+ name)
  /\ (gettempdir env = "/" -> temp_path env name = "/summarize-mcp/" +:+ name).
Proof.
  intros Hp. unfold temp_path, path_join, sep. rewrite Hp.
  split; intros ->; reflexivity.
Qed.

(** X23. On one host two artifact paths are equal exactly when the
    millisecond timestamps they were made from are equal. *)
Theorem artifact_path_determines_timestamp (env : Env) (t1 t2 : Z) :
  temp_path env (speech_name t1) = temp_path env (speech_name t2) <-> t1 = t2.
Proof.
  split; [|by intros ->].
  unfold temp_path.
  generalize (path_join env (gettempdir env) "summarize-mcp"). intros a H.
  unfold path_join in H. apply speech_name_inj.
  destruct (negb (Py.truthy a)); [done|].
  destruct (Py.endswith (sep env) a).
  - by apply (inj (String.app a)) in H.
  - by do 2 apply (inj (String.app _)) in H.
Qed.

(** X24. The deferred deletion never raises and is about one file
    only: it leaves a world that differs from the one before at most in
    the scratch directory, where every other file is as it was, and the
    named file is gone unless deleting it failed. *)
Theorem cleanup_removes_only_its_file (speech_file : string) (w : World) :
  exists w',
    cleanup speech_file w = (inr tt, w')
    /\ w' = set_temp_dir (temp_dir w') w
    /\ match temp_dir w with
       | None => w' = w
       | Some files =>
           exists files',
             temp_dir w' = Some files'
             /\ (forall k, k <> speech_file -> files' !! k = files !! k)
             /\ files' !! speech_file
                = match files !! speech_file with
                  | Some e => if in_use e then Some e else None
                  | None => None
                  end
       end.
Proof.
  unfold cleanup, unlink. run.
  destruct (temp_dir w) as [files|] eqn:Hd; simpl.
  - destruct (files !! speech_file) as [e|] eqn:Hn; simpl.
    + destruct (in_use e); simpl.
      * exists w. rewrite Hd. rewrite set_temp_dir_id by done.
        repeat split. exists files. by rewrite Hn.
      * eexists. split; [reflexivity|]. rewrite Hd. simpl. split; [done|].
        eexists. split; [done|]. split.
        -- intros k Hk. by rewrite lookup_delete_ne.
        -- by rewrite lookup_delete_eq.
    + exists w. rewrite Hd. rewrite set_temp_dir_id by done.
      repeat split. exists files. by rewrite Hn.
  - exists w. rewrite Hd. by rewrite set_temp_dir_id.
Qed.

(** ** The voice invariant *)

Lemma default_voice_valid : default_voice ∈ VALID_VOICES.
Proof. compute_done. Qed.

Lemma load_state_keeps_valid_voice (w : World) :
  file_voice_ok (state_file w) ->
  UserState.voice (current_state w) ∈ VALID_VOICES ->
  UserState.voice (current_state (load_state w).2) ∈ VALID_VOICES.
Proof.
  intros Hf Hv. unfold load_state, file_voice_ok in *. run.
  destruct (state_file w) as [|e|[data|]]; simpl;
    try done; try apply default_voice_valid.
  destruct data; simpl; try apply default_voice_valid.
  unfold UserState.field.
  destruct (dict_get "voice" members) as [[]|];
    destruct (dict_get "tone" members) as [[]|]; simpl;
    done || apply default_voice_valid.
Qed.

Lemma run_calls_keeps_valid_voice (calls : list (Env * Call)) :
  forall w,
    UserState.voice (current_state w) ∈ VALID_VOICES ->
    UserState.voice (current_state (run_calls w calls)) ∈ VALID_VOICES.
Proof.
  unfold run_calls.
  induction calls as [|[env c] calls IH]; intros w Hv; simpl; [done|].
  apply IH. by apply handle_keeps_valid_voice.
Qed.

(** X25. The voice invariant, where it holds: when the state file at
    startup is absent or unusable, or holds no voice, a voice that is
    not a string, or a voice of the ten, then after startup and after
    any sequence of [play_summary], [set_voice] and [set_tone] calls,
    on whatever hosts, the stored voice is one of the ten. *)
Theorem valid_voice_invariant (env : Env) (f : StateFile)
    (d : option (gmap string FileEntry)) (w : World)
    (calls : list (Env * Call)) :
  initialize_server env (module_world f d) = (inr tt, w) ->
  file_voice_ok f ->
  UserState.voice (current_state (run_calls w calls)) ∈ VALID_VOICES.
Proof.
  intros Hstart Hf. apply run_calls_keeps_valid_voice.
  rewrite initialize_server_run in Hstart.
  destruct (api_key_set env); [|done].
  destruct (client_error env); [done|]. cbv zeta in Hstart.
  destruct (mkdir env); [done|].
  rewrite cleanup_old_files_run in Hstart. simpl in Hstart.
  apply (f_equal snd) in Hstart. simpl in Hstart. rewrite <- Hstart.
  apply load_state_keeps_valid_voice; [exact Hf | apply default_voice_valid].
Qed.

Lemma valid_voice_invariant_witness :
  file_voice_ok numeric_tone_file
  /\ UserState.voice
       (current_state
          (run_calls
             (initialize_server (linux_host 1700000000)
                (module_world numeric_tone_file None)).2
             [(linux_host 1700000001, SetTone "Speak slowly");
              (linux_host 1700000002, SetVoice "robot");
              (linux_host 1700000003, PlaySummary "hello" (Some "ash") None)]))
     ∈ VALID_VOICES.
Proof.
  assert (Hf : file_voice_ok numeric_tone_file) by compute_done.
  split; [exact Hf|].
  apply (valid_voice_invariant (linux_host 1700000000) numeric_tone_file None);
    [by vm_compute | exact Hf].
Defined.

(** X26. The stored preferences are what a call without overrides
    works with: after [set_voice V] and [set_tone T] with a valid voice
    and a non-empty tone, a [play_summary] that names neither voice
    nor instructions sends, if it sends anything, the request with
    voice [V] and instructions [T]; whether or not the state file
    could be written; and when it reports success, it reports [V]. *)
Theorem stored_preferences_used_when_absent
    (env_v env_t env : Env) (V T summary : string) (w : World) :
  V ∈ VALID_VOICES ->
  (1 <= Py.len T)%nat ->
  let w1 := (set_tone env_t T (set_voice env_v V w).2).2 in
  let r := play_summary env summary None None w1 in
  let req := {| req_model := "gpt-4o-mini-tts"; req_voice := V;
                req_input := summary; req_instructions := T |} in
  (speech_requests r.2 = speech_requests w
   \/ speech_requests r.2 = speech_requests w ++ [req])
  /\ forall s, r.1 = inr s -> Py.startswith ok_mark s = true ->
       s = play_summary_ok V summary
       /\ speech_requests r.2 = speech_requests w ++ [req].
Proof.
  intros HV HT w1 r req.
  assert (Hst : current_state w1
                = {| UserState.voice := V; UserState.tone := T |}
                /\ speech_requests w1 = speech_requests w).
  { subst w1. rewrite set_voice_valid_run, set_tone_valid_run by done.
    rewrite !save_state_run. simpl.
    by destruct (write_state env_t), (write_state env_v). }
  destruct Hst as [Hst Hreq].
  pose proof (play_summary_requests env summary None None w1) as H.
  cbv zeta in H. fold r in H. rewrite Hst, Hreq in H.
  exact H.
Qed.

Lemma stored_preferences_used_when_absent_witness :
  ("nova" ∈ VALID_VOICES)
  /\ (1 <= Py.len "Speak slowly")%nat
  /\ speech_requests
       (play_summary (linux_host 3) "hello" None None
          (set_tone (read_only_host 2) "Speak slowly"
             (set_voice (read_only_host 1) "nova" fresh_server).2).2).2
     = [{| req_model := "gpt-4o-mini-tts"; req_voice := "nova";
           req_input := "hello"; req_instructions := "Speak slowly" |}].
Proof.
  assert (HV : "nova" ∈ VALID_VOICES) by compute_done.
  assert (HT : (1 <= Py.len "Speak slowly")%nat) by (vm_compute; lia).
  split; [exact HV|]. split; [exact HT|].
  destruct (stored_preferences_used_when_absent (read_only_host 1)
              (read_only_host 2) (linux_host 3) "nova" "Speak slowly" "hello"
              fresh_server HV HT) as [_ Hok].
  apply (Hok (play_summary_ok "nova" "hello")); by vm_compute.
Defined.
